(** * Happypanda: shallow embedding of the download manager, the metadata
    clients, the fetch orchestrator, the plugin wiring and the database
    backup helper, with the properties of their specification. *)

From Stdlib Require Import String Ascii List Bool Arith Lia.
From Stdlib Require Import DecimalNat.
From Stdlib Require Lists.Finite.
Import ListNotations.
Open Scope string_scope.
Open Scope list_scope.

(* ------------------------------------------------------------------ *)
(** ** Python string primitives (ASCII) *)

Module Py.

Definition is_upper (c : ascii) : bool :=
  let n := nat_of_ascii c in (65 <=? n)%nat && (n <=? 90)%nat.
Definition is_lower (c : ascii) : bool :=
  let n := nat_of_ascii c in (97 <=? n)%nat && (n <=? 122)%nat.

Definition lower_char (c : ascii) : ascii :=
  if is_upper c then ascii_of_nat ((nat_of_ascii c + 32)%nat) else c.
Definition upper_char (c : ascii) : ascii :=
  if is_lower c then ascii_of_nat ((nat_of_ascii c - 32)%nat) else c.

(** [s.lower()] *)
Fixpoint lower (s : string) : string :=
  match s with
  | EmptyString => EmptyString
  | String c s' => String (lower_char c) (lower s')
  end.

(** [s.capitalize()]: first character upper case, the rest lower case. *)
Definition capitalize (s : string) : string :=
  match s with
  | EmptyString => EmptyString
  | String c s' => String (upper_char c) (lower s')
  end.

(** [s.replace(a, b)] for single characters. *)
Fixpoint replace_char (a b : ascii) (s : string) : string :=
  match s with
  | EmptyString => EmptyString
  | String c s' =>
      String (if Ascii.eqb c a then b else c) (replace_char a b s')
  end.

(** [sep in s] for a one-character [sep]. *)
Fixpoint contains_char (sep : ascii) (s : string) : bool :=
  match s with
  | EmptyString => false
  | String c s' => Ascii.eqb c sep || contains_char sep s'
  end.

(** [s.split(sep)] for a one-character [sep]. *)
Fixpoint split (sep : ascii) (s : string) : list string :=
  match s with
  | EmptyString => [EmptyString]
  | String c s' =>
      let r := split sep s' in
      if Ascii.eqb c sep then EmptyString :: r
      else match r with
           | h :: t => String c h :: t
           | [] => [String c EmptyString]
           end
  end.

(** [str(n)] for a natural number: its decimal digits. *)
Definition digit_char (d : Decimal.uint) : string :=
  match d with
  | Decimal.D0 _ => "0" | Decimal.D1 _ => "1" | Decimal.D2 _ => "2"
  | Decimal.D3 _ => "3" | Decimal.D4 _ => "4" | Decimal.D5 _ => "5"
  | Decimal.D6 _ => "6" | Decimal.D7 _ => "7" | Decimal.D8 _ => "8"
  | Decimal.D9 _ => "9" | Decimal.Nil => ""
  end.

Fixpoint uint_to_string (d : Decimal.uint) : string :=
  match d with
  | Decimal.Nil => ""
  | Decimal.D0 r | Decimal.D1 r | Decimal.D2 r | Decimal.D3 r
  | Decimal.D4 r | Decimal.D5 r | Decimal.D6 r | Decimal.D7 r
  | Decimal.D8 r | Decimal.D9 r => (digit_char d ++ uint_to_string r)%string
  end.

Definition str_nat (n : nat) : string := uint_to_string (Nat.to_uint n).

(** A Python dict with string keys, as an association list in insertion
    order (keys are unique). *)
Definition dict (V : Type) := list (string * V).

Fixpoint get {V} (k : string) (d : dict V) : option V :=
  match d with
  | [] => None
  | (k', v) :: d' => if String.eqb k k' then Some v else get k d'
  end.

Definition has_key {V} (k : string) (d : dict V) : bool :=
  match get k d with Some _ => true | None => false end.

(** [d[k] = v]: an existing key keeps its position, a new one goes last. *)
Fixpoint set {V} (k : string) (v : V) (d : dict V) : dict V :=
  match d with
  | [] => [(k, v)]
  | (k', v') :: d' =>
      if String.eqb k k' then (k', v) :: d' else (k', v') :: set k v d'
  end.

End Py.

(* ------------------------------------------------------------------ *)
(** ** [EHen.parse_metadata]: the tag normalisation loop
    (src/happypanda/pewnet.py, EHen.parse_metadata)

<<
tags = {'default':[]}
for t in gallery['tags']:
    if ':' in t:
        ns_tag = t.split(':')
        namespace = ns_tag[0].capitalize()
        tag = ns_tag[1].lower().replace('_', ' ')
        if not namespace in tags:
            tags[namespace] = []
        tags[namespace].append(tag)
    else:
        tags['default'].append(t.lower().replace('_', ' '))
>>
    [tags[k].append(x)] on a missing key raises KeyError: the loop lives in
    [option], [None] standing for the exception. *)
Module ParseMeta.
Import Py.

Definition tag_dict := dict (list string).

(** [d[k].append(x)] *)
Definition append_to (k : string) (x : string) (d : tag_dict)
  : option tag_dict :=
  match get k d with
  | Some l => Some (set k (l ++ [x]) d)
  | None => None
  end.

Definition norm (s : string) : string := replace_char "_" " " (lower s).

Fixpoint tags_loop (ts : list string) (tags : tag_dict) : option tag_dict :=
  match ts with
  | [] => Some tags
  | t :: ts' =>
      if contains_char ":" t then
        let ns_tag := split ":" t in
        let namespace := capitalize (nth 0 ns_tag "") in
        let tag := norm (nth 1 ns_tag "") in
        let tags1 := if has_key namespace tags then tags
                     else set namespace [] tags in
        match append_to namespace tag tags1 with
        | Some tags2 => tags_loop ts' tags2
        | None => None
        end
      else
        match append_to "default" (norm t) tags with
        | Some tags2 => tags_loop ts' tags2
        | None => None
        end
  end.

Definition parse_tags (ts : list string) : option tag_dict :=
  tags_loop ts [("default", [])].

(** The claim's reading of a raw tag, written from the spec's words: a
    colon-containing tag goes to its capitalised namespace (the text before
    the colon) with the lower-cased, underscores-to-spaces text after the
    colon; a colon-less tag goes to ["default"]. *)
Definition spec_key (t : string) : string :=
  if contains_char ":" t then capitalize (nth 0 (split ":" t) "")
  else "default".
Definition spec_value (t : string) : string :=
  if contains_char ":" t then norm (nth 1 (split ":" t) "") else norm t.

(** The namespace [k] of the normalised mapping, by the spec. *)
Definition spec_lookup (ts : list string) (k : string) : option (list string) :=
  let hits := filter (fun t => String.eqb (spec_key t) k) ts in
  if String.eqb k "default" then Some (map spec_value hits)
  else match hits with
       | [] => None
       | _ => Some (map spec_value hits)
       end.

End ParseMeta.

(* ------------------------------------------------------------------ *)
(** ** [EHen.apply_metadata] (src/happypanda/pewnet.py)

    The gallery entity and the canonical record produced by
    [parse_metadata]. Python truthiness: an empty string and an empty dict
    are false. The publication date is kept as a string, [""] for unset. *)
Module ApplyMeta.
Import Py ParseMeta.

Record gallery := mkGallery {
  g_title : string;
  g_artist : string;
  g_language : string;
  g_type : string;
  g_pub_date : string;
  g_tags : tag_dict;
  g_link : string;
  g_temp_url : string
}.

Record record := mkRecord {
  d_title_def : string;
  d_title_jpn : option string;   (** [data['title']['jpn']], if present *)
  d_type : string;
  d_pub_date : string;
  d_tags : tag_dict;
  d_url : option string          (** [data['url']], if present *)
}.

(** [for tag in new: if not tag in cur: cur.append(tag)] *)
Fixpoint add_missing (cur new : list string) : list string :=
  match new with
  | [] => cur
  | t :: new' =>
      if existsb (String.eqb t) cur then add_missing cur new'
      else add_missing (cur ++ [t]) new'
  end.

(** The merge loop over [data['tags']]:
<<
for ns in data['tags']:
    if ns in g.tags:
        for tag in data['tags'][ns]:
            if not tag in g.tags[ns]:
                g.tags[ns].append(tag)
    else:
        g.tags[ns] = data['tags'][ns]
>> *)
Fixpoint merge_tags (gt : tag_dict) (dt : tag_dict) : tag_dict :=
  match dt with
  | [] => gt
  | (ns, l) :: dt' =>
      match get ns gt with
      | Some old => merge_tags (set ns (add_missing old l) gt) dt'
      | None => merge_tags (set ns l gt) dt'
      end
  end.

Section Apply.
(** [app_constants.USE_JPN_TITLE] and [utils.title_parser], which returns
    the title, artist and language it finds in a title. *)
Variable USE_JPN_TITLE : bool.
Variable title_parser : string -> string * string * string.

Definition is_empty (s : string) : bool := String.eqb s "".

(** [data['tags']['Artist'][0].capitalize()] when the namespace exists:
    [Some None] when it does not, [None] for the IndexError of an empty
    list. *)
Definition tag_artist (tags : tag_dict) : option (option string) :=
  match get "Artist" tags with
  | None => Some None
  | Some [] => None
  | Some (a :: _) => Some (Some (capitalize a))
  end.

Definition apply_metadata (g : gallery) (data : record) (append : bool)
  : option gallery :=
  let title :=
    if USE_JPN_TITLE then
      match d_title_jpn data with Some j => j | None => d_title_def data end
    else d_title_def data in
  let lang :=
    match get "Language" (d_tags data) with
    | Some l =>
        match filter (fun x => negb (String.eqb x "translated")) l with
        | x :: _ => capitalize x
        | [] => ""
        end
    | None => ""
    end in
  let '(tp_title, tp_artist, tp_language) := title_parser title in
  if negb append then
    let artist0 := if is_empty tp_artist then g_artist g else tp_artist in
    match tag_artist (d_tags data) with
    | None => None
    | Some ta =>
        let artist := match ta with Some a => a | None => artist0 end in
        let language :=
          if is_empty lang then capitalize tp_language else lang in
        let link :=
          match d_url data with Some u => u | None => g_temp_url g end in
        Some (mkGallery tp_title artist language (d_type data)
                (d_pub_date data) (d_tags data) link (g_temp_url g))
    end
  else
    let title' := if is_empty (g_title g) then tp_title else g_title g in
    let artist_r :=
      if is_empty (g_artist g) then
        match tag_artist (d_tags data) with
        | None => None
        | Some (Some a) => Some a
        | Some None => Some tp_artist
        end
      else Some (g_artist g) in
    match artist_r with
    | None => None
    | Some artist =>
        let language :=
          if is_empty (g_language g) then
            (if is_empty lang then capitalize tp_language else lang)
          else g_language g in
        let type' :=
          if is_empty (g_type g) || String.eqb (g_type g) "Other"
          then d_type data else g_type g in
        let pub := if is_empty (g_pub_date g) then d_pub_date data
                   else g_pub_date g in
        let tags := match g_tags g with
                    | [] => d_tags data
                    | gt => merge_tags gt (d_tags data)
                    end in
        let link := if is_empty (g_link g) then
                      match d_url data with
                      | Some u => u
                      | None => g_temp_url g
                      end
                    else g_link g in
        Some (mkGallery title' artist language type' pub tags link
                (g_temp_url g))
    end.

End Apply.

(** Distinct keys, as in a dict. *)
Fixpoint keys_distinct (ks : list string) : bool :=
  match ks with
  | [] => true
  | k :: ks' => negb (existsb (String.eqb k) ks') && keys_distinct ks'
  end.

(** A canonical record: its tag keys are distinct (it is a dict) and an
    ["Artist"] namespace, when present, is non-empty, as [parse_metadata]
    builds them. *)
Definition canonical (d : record) : bool :=
  keys_distinct (map fst (d_tags d)) &&
  match get "Artist" (d_tags d) with Some [] => false | _ => true end.

(** The tags of namespace [ns], [[]] when absent. *)
Definition tags_of (t : tag_dict) (ns : string) : list string :=
  match get ns t with Some l => l | None => [] end.

End ApplyMeta.

(* ------------------------------------------------------------------ *)
(** ** POSIX path helpers ([os.path.split], [os.path.join]) *)
Module Path.
Import Py.

Fixpoint split_raw (p : string) : string * string :=
  match p with
  | EmptyString => (EmptyString, EmptyString)
  | String c p' =>
      if contains_char "/" p' then
        let '(h, t) := split_raw p' in (String c h, t)
      else if Ascii.eqb c "/" then ("/", p')
      else (EmptyString, String c p')
  end.

Definition all_slashes (s : string) : bool :=
  forallb (fun c => Ascii.eqb c "/") (list_ascii_of_string s).

Fixpoint drop_slashes (l : list ascii) : list ascii :=
  match l with
  | c :: l' => if Ascii.eqb c "/" then drop_slashes l' else l
  | [] => []
  end.

(** [s.rstrip('/')] *)
Definition rstrip_slash (s : string) : string :=
  string_of_list_ascii (rev (drop_slashes (rev (list_ascii_of_string s)))).

(** [os.path.split(p)]: [head] is everything up to the last slash, with
    trailing slashes removed unless it is all slashes; [tail] the rest. *)
Definition split (p : string) : string * string :=
  let '(h, t) := split_raw p in
  (if negb (String.eqb h "") && negb (all_slashes h) then rstrip_slash h
   else h, t).

Definition ends_with_slash (s : string) : bool :=
  match rev (list_ascii_of_string s) with
  | c :: _ => Ascii.eqb c "/"
  | [] => false
  end.

(** [os.path.join(a, b)] *)
Definition join (a b : string) : string :=
  match b with
  | String "/" _ => b
  | _ => if String.eqb a "" || ends_with_slash a then (a ++ b)%string else (a ++ "/" ++ b)%string
  end.

End Path.

(* ------------------------------------------------------------------ *)
(** ** [Downloader] (src/happypanda/pewnet.py) *)
Module Downloader.
Import Py.

(** [DownloaderItem.IN_QUEUE, DOWNLOADING, FINISHED, CANCELLED = range(4)] *)
Inductive dl_state := IN_QUEUE | DOWNLOADING | FINISHED | CANCELLED.

Definition dl_state_eqb (a b : dl_state) : bool :=
  match a, b with
  | IN_QUEUE, IN_QUEUE | DOWNLOADING, DOWNLOADING
  | FINISHED, FINISHED | CANCELLED, CANCELLED => true
  | _, _ => false
  end.

(** The position of a state in [IN_QUEUE -> DOWNLOADING -> FINISHED |
    CANCELLED]. *)
Definition rank (s : dl_state) : nat :=
  match s with
  | IN_QUEUE => 0 | DOWNLOADING => 1 | FINISHED => 2 | CANCELLED => 2
  end.

(** A single-URL [DownloaderItem]. *)
Record item := mkItem {
  download_url : string;
  file : string;
  name : string;
  total_size : nat;
  current_size : nat;
  current_state : dl_state
}.

(** [DownloaderItem(url)] *)
Definition new_item (url : string) : item := mkItem url "" "" 0 0 IN_QUEUE.

Definition set_state (s : dl_state) (it : item) : item :=
  mkItem (download_url it) (file it) (name it) (total_size it)
    (current_size it) s.
Definition set_file (f : string) (it : item) : item :=
  mkItem (download_url it) f (name it) (total_size it) (current_size it)
    (current_state it).
Definition set_total (n : nat) (it : item) : item :=
  mkItem (download_url it) (file it) (name it) n (current_size it)
    (current_state it).
Definition add_size (n : nat) (it : item) : item :=
  mkItem (download_url it) (file it) (name it) (total_size it)
    (current_size it + n) (current_state it).

(** [DownloaderItem.cancel] *)
Definition cancel (it : item) : item := set_state CANCELLED it.

(** The characters [_get_filename] strips. *)
Definition invalid_chars : list ascii :=
  ["\"; "/"; ":"; "*"; "?"; Ascii.ascii_of_nat 34; "<"; ">"; "|"]%char.

Fixpoint strip_chars (s : string) : string :=
  match s with
  | EmptyString => EmptyString
  | String c s' =>
      if existsb (Ascii.eqb c) invalid_chars then strip_chars s'
      else String c (strip_chars s')
  end.

(** [Downloader._get_filename] with no temporary folder; [fresh] stands for
    [str(uuid.uuid4())]. *)
Definition get_filename (base fresh : string) (it : item) : string :=
  let file_name := if String.eqb (name it) "" then fresh else name it in
  Path.join base (strip_chars file_name).

Section Rename.
(** Whether [os.rename(src, dst)] succeeds on the file system at hand. *)
Variable rename_ok : string -> string -> bool.

(** The [while n < max_loop] loop of [_rename_file]: the final counter and
    the [(src, dst)] pairs passed to [os.rename].
<<
while n < max_loop:
    try:
        if file_split[1]:
            src_file = file_split[0]
            target_file = "({}){}".format(n, file_split[1])
        else:
            src_file = file_name_part
            target_file = "({}){}".format(n, file_name)
        os.rename(src_file, target_file)
        break
    except:
        n += 1
>> *)
Fixpoint rename_loop (file_name file_name_part : string) (max_loop : nat)
    (fuel n : nat) : nat * list (string * string) :=
  match fuel with
  | O => (n, [])
  | S fuel' =>
      if Nat.ltb n max_loop then
        let file_split := Path.split file_name in
        let '(src_file, target_file) :=
          if negb (String.eqb (snd file_split) "") then
            (fst file_split, ("(" ++ str_nat n ++ ")" ++ snd file_split)%string)
          else (file_name_part, ("(" ++ str_nat n ++ ")" ++ file_name)%string) in
        if rename_ok src_file target_file then (n, [(src_file, target_file)])
        else
          let '(n', tries) :=
            rename_loop file_name file_name_part max_loop fuel' (S n) in
          (n', (src_file, target_file) :: tries)
      else (n, [])
  end.

(** [Downloader._rename_file(filename, filename_part, max_loop)]: the name
    it returns, and the renames it attempted. *)
Definition rename_file (filename filename_part : string) (max_loop : nat)
  : string * list (string * string) :=
  let '(n, tries) := rename_loop filename filename_part max_loop max_loop 0 in
  ((if Nat.ltb max_loop n then filename_part else filename), tries).

End Rename.

(** The worker of [Downloader._downloading] on one single-URL item:
    where it is in [_download_item_with_single_dl_url]. *)
Inductive pc :=
| WQueued                          (** still in [_inc_queue] *)
| WLoop (file_name : string) (chunks : list nat)
    (** inside [for data in response.iter_content(1024)] of
        [_download_with_simple_method], [chunks] still to come *)
| WPost (file_name : string) (interrupt : bool)
    (** after the loop, before the post operation *)
| WDone.

(** The item, the worker, and the files that exist. *)
Record config := mkConfig {
  cpc : pc;
  citem : item;
  cfs : list string
}.

(** What happens next: the worker takes a step, or another thread calls
    [item.cancel()]. *)
Inductive event := Work | Cancel.

Definition remove_file (f : string) (fs : list string) : list string :=
  filter (fun g => negb (String.eqb g f)) fs.

Section Worker.
(** The download directory, the fresh [uuid4] name, the response's
    content-length and chunk sizes, and the file system's renames. *)
Variable base fresh : string.
Variable content_length : nat.
Variable chunks : list nat.
Variable rename_ok : string -> string -> bool.

Definition part (file_name : string) : string := (file_name ++ ".part")%string.

Definition work (c : config) : config :=
  let it := citem c in
  match cpc c with
  | WQueued =>
      (* item.current_state = item.DOWNLOADING; file_name = ...;
         item.total_size = ...; open(file_name_part, 'wb') *)
      let fname := get_filename base fresh it in
      mkConfig (WLoop fname chunks)
        (set_total content_length (set_state DOWNLOADING it))
        (part fname :: remove_file (part fname) (cfs c))
  | WLoop fname [] => mkConfig (WPost fname false) it (cfs c)
  | WLoop fname (d :: ds) =>
      if dl_state_eqb (current_state it) CANCELLED then
        (* interrupt_state = True; break *)
        mkConfig (WPost fname true) it (cfs c)
      else
        (* if data: item.current_size += len(data); f.write(data) *)
        mkConfig (WLoop fname ds) (if Nat.eqb d 0 then it else add_size d it) (cfs c)
  | WPost fname false =>
      (* try: os.rename(file_name_part, file_name)
         except OSError: file_name = self._rename_file(...) *)
      let '(file_name, fs') :=
        if rename_ok (part fname) fname then
          (fname, fname :: remove_file fname (remove_file (part fname) (cfs c)))
        else (fst (rename_file rename_ok fname (part fname) 100), cfs c) in
      mkConfig WDone (set_state FINISHED (set_file file_name it)) fs'
  | WPost fname true =>
      (* self.remove_file(filename=file_name_part) *)
      mkConfig WDone it (remove_file (part fname) (cfs c))
  | WDone => c
  end.

Definition step (e : event) (c : config) : config :=
  match e with
  | Work => work c
  | Cancel => mkConfig (cpc c) (cancel (citem c)) (cfs c)
  end.

Definition run (es : list event) (c : config) : config :=
  fold_left (fun c e => step e c) es c.

End Worker.

(** An item freshly put in the queue. *)
Definition queued (it : item) (fs : list string) : config :=
  mkConfig WQueued it fs.

End Downloader.

(* ------------------------------------------------------------------ *)
(** ** [CommenHen.process_queue] (src/happypanda/pewnet.py) *)
Module CommenHen.

(** [_QUEUE_LIMIT] *)
Definition QUEUE_LIMIT : nat := 25.

(** What [get_metadata] does: return [(api_data, galleryid_dict)], return
    [None], return the string ['error'] (EHen, on a bad response), or raise
    (e.g. [MetadataFetchFail]). *)
Inductive gm_result :=
| GMPair (api_data : string) (galleryid_dict : list (nat * string))
| GMNone
| GMStr (s : string)
| GMRaise (exn : string).

(** How [process_queue] ends: it returns [None] or the unpacked pair, or
    it raises. A two-character string unpacks into its two characters,
    which are returned as the pair. *)
Inductive outcome :=
| Returns (r : option (string * list (nat * string)))
| ReturnsChars (api_data galleryid_dict : ascii)
| Raises (exn : string).

(** [api_data, galleryid_dict = v]: unpacking [None] raises TypeError, a
    string unpacks into its characters if it has exactly two, and raises
    ValueError otherwise. *)
Definition unpack (v : gm_result) : outcome :=
  match v with
  | GMPair a g => Returns (Some (a, g))
  | GMNone => Raises "TypeError"
  | GMStr (String c1 (String c2 EmptyString)) => ReturnsChars c1 c2
  | GMStr _ => Raises "ValueError"
  | GMRaise e => Raises e
  end.

(**
<<
if len(self.QUEUE) < 1:
    return None
try:
    if len(self.QUEUE) >= self._QUEUE_LIMIT:
        api_data, galleryid_dict = self.get_metadata(self.QUEUE[:self._QUEUE_LIMIT])
    else:
        api_data, galleryid_dict = self.get_metadata(self.QUEUE)
except TypeError:
    return None
finally:
    self.QUEUE.clear()
return api_data, galleryid_dict
>>
    The outcome, the shared queue afterwards, and the argument given to
    [get_metadata] (if it was called). *)
Definition process_queue (get_metadata : list string -> gm_result)
    (queue : list string) : outcome * list string * option (list string) :=
  if Nat.ltb (length queue) 1 then (Returns None, queue, None)
  else
    let arg := if Nat.leb QUEUE_LIMIT (length queue)
               then firstn QUEUE_LIMIT queue else queue in
    let o := match unpack (get_metadata arg) with
             | Raises "TypeError" => Returns None
             | o => o
             end in
    (o, [], Some arg).

End CommenHen.

(* ------------------------------------------------------------------ *)
(** ** [HenItem.update_metadata] (src/happypanda/pewnet.py) *)
Module HenItem.

Local Set Warnings "-register-all".

(** JSON-like Python values. *)
Inductive pyval :=
| PInt (n : nat)
| PStr (s : string)
| PBool (b : bool)
| PList (l : list pyval)
| PDict (d : list (string * pyval)).

Fixpoint dget (k : string) (d : list (string * pyval)) : option pyval :=
  match d with
  | [] => None
  | (k', v) :: d' => if String.eqb k k' then Some v else dget k d'
  end.

Fixpoint dset (k : string) (v : pyval) (d : list (string * pyval))
  : list (string * pyval) :=
  match d with
  | [] => [(k, v)]
  | (k', v') :: d' =>
      if String.eqb k k' then (k', v) :: d' else (k', v') :: dset k v d'
  end.

(** The skeleton record written by [update_metadata]. *)
Definition skeleton : list (string * pyval) :=
  [("gid", PInt 1);
   ("title", PStr "");
   ("title_jpn", PStr "");
   ("category", PStr "Manga");
   ("uploader", PStr "");
   ("Posted", PStr "");
   ("filecount", PStr "0");
   ("filesize", PInt 0);
   ("expunged", PBool false);
   ("rating", PStr "0");
   ("torrentcount", PStr "0");
   ("tags", PList [])].

(** [self.metadata] is a dict; the result is the new metadata, or [None]
    for the IndexError of an empty ['gmetadata'] list.
<<
if not self.metadata:
    self.metadata = {"gmetadata": [ {...skeleton...} ]}
try:
    metadata = self.metadata['gmetadata'][0]
except KeyError:
    return
metadata[key] = value
>> *)
Definition update_metadata (metadata : list (string * pyval))
    (key : string) (value : pyval) : option (list (string * pyval)) :=
  let md := match metadata with
            | [] => [("gmetadata", PList [PDict skeleton])]
            | _ => metadata
            end in
  match dget "gmetadata" md with
  | None => Some md
  | Some (PList (PDict r :: rest)) =>
      Some (dset "gmetadata" (PList (PDict (dset key value r) :: rest)) md)
  | Some (PList []) => None
  | Some _ => Some md   (* a non-dict record: not produced by this code *)
  end.

End HenItem.

(* ------------------------------------------------------------------ *)
(** ** [Plugins._connectHooks] (src/version/hplugins.py) *)
Module Plugins.
Import Py.

(** A handler is known by an identifier; a [Hook] keeps its handler set. *)
Definition handler := nat.

(** [Hook.addHandler]: [self._handlers.add(handler)] *)
Definition add_handler (h : handler) (hs : list handler) : list handler :=
  if existsb (Nat.eqb h) hs then hs else hs ++ [h].

(** [Plugins.hooks]: plugin id -> hook name -> the hook's handlers. *)
Definition hooks := dict (dict (list handler)).

(** A pending connection [(plugin_name, pluginid, h_name, handler)]. *)
Record connection := mkConn {
  plugin_name : string;
  pluginid : string;
  h_name : string;
  conn_handler : handler
}.

(**
<<
for plugin_name, pluginid, h_name, handler in self._connections:
    try:
        p = self.hooks[pluginid]
    except KeyError:
        log_e("Could not find plugin with plugin id: {}".format(pluginid))
        return
    try:
        h = p[h_name]
    except KeyError:
        log_e("Could not find pluginhook with name: {}".format(h_name))
        return
    h.addHandler(handler)
>>
    The hooks afterwards (handlers are added in place). *)
Fixpoint connect_hooks (hs : hooks) (conns : list connection) : hooks :=
  match conns with
  | [] => hs
  | c :: conns' =>
      match get (pluginid c) hs with
      | None => hs
      | Some p =>
          match get (h_name c) p with
          | None => hs
          | Some h =>
              connect_hooks
                (set (pluginid c)
                   (set (h_name c) (add_handler (conn_handler c) h) p) hs)
                conns'
          end
      end
  end.

(** Whether a connection's target plugin id and hook name both exist. *)
Definition resolvable (hs : hooks) (c : connection) : bool :=
  match get (pluginid c) hs with
  | Some p => match get (h_name c) p with Some _ => true | None => false end
  | None => false
  end.

(** The handlers of hook [hook] of plugin [pid]. *)
Definition handlers_of (hs : hooks) (pid hook : string) : list handler :=
  match get pid hs with
  | Some p => match get hook p with Some l => l | None => [] end
  | None => []
  end.

End Plugins.

(* ------------------------------------------------------------------ *)
(** ** Database backup ([version.utils.backup_database]) *)
Module Backup.

(** [backup_database] of [version/utils.py]. Its body is not part of the
    sources; its test [test_run_backup_database] (src/tests/test_utils.py)
    is, and it fixes what the function does with [os], [shutil] and
    [datetime]:
    - [date = "{}".format(datetime.datetime.today()).split(' ')[0]];
    - [os.path.split(db_path)], [os.path.join(base_path, 'backup')],
      [os.path.isdir(...)], and [os.mkdir(...)] exactly when that is false;
    - then [os.path.join(backup_dir, "<date>-<name>")] and
      [os.path.exists(...)]; on a clash the names
      ["<date>(1)-<date>-<name>"], ["<date>(2)-<date>-<name>"], ...;
    - with [exists] always true, 103 [os] calls (104 with [mkdir]): the 3
      calls before the loop and a [join] and an [exists] for each of 50
      names; [shutil] is not called;
    - with [exists] false, 5 [os] calls (6 with [mkdir]) and one
      [shutil.copyfile(db_path, <joined path>)];
    - the result is true.
    The [os] calls it makes, the [shutil.copyfile] calls, and the result. *)
Inductive os_call :=
| OsSplit (p : string)
| OsJoin (a b : string)
| OsIsdir (p : string)
| OsMkdir (p : string)
| OsExists (p : string).

(** [s.split(' ')[0]] *)
Fixpoint before_space (s : string) : string :=
  match s with
  | EmptyString => EmptyString
  | String c r => if Ascii.eqb c " " then EmptyString else String c (before_space r)
  end.

(** The name of the [n]-th attempt: ["<date>-<name>"], then
    ["<date>(n)-<date>-<name>"]. *)
Definition backup_name (date name : string) (n : nat) : string :=
  if Nat.eqb n 0 then (date ++ "-" ++ name)%string
  else (date ++ "(" ++ Py.str_nat n ++ ")-" ++ date ++ "-" ++ name)%string.

(** The number of names tried. *)
Definition MAX_TRIES : nat := 50.

Section Os.
(** [os.path.split], [os.path.join], [os.path.isdir], [os.path.exists]. *)
Variable os_split : string -> string * string.
Variable os_join : string -> string -> string.
Variable os_isdir : string -> bool.
Variable os_exists : string -> bool.

(** Attempts [n], [n+1], ... ([fuel] of them): the calls made and the
    path copied to, if one was free. *)
Fixpoint try_names (backup_dir date name : string) (fuel n : nat)
  : list os_call * option string :=
  match fuel with
  | O => ([], None)
  | S fuel' =>
      let db_name := backup_name date name n in
      let dst := os_join backup_dir db_name in
      let calls := [OsJoin backup_dir db_name; OsExists dst] in
      if os_exists dst then
        let '(cs, r) := try_names backup_dir date name fuel' (S n) in
        (calls ++ cs, r)
      else (calls, Some dst)
  end.

Definition backup_database (today db_path : string)
  : list os_call * list (string * string) * bool :=
  let date := before_space today in
  let '(base_path, name) := os_split db_path in
  let backup_dir := os_join base_path "backup" in
  let pre := [OsSplit db_path; OsJoin base_path "backup"; OsIsdir backup_dir] ++
             (if os_isdir backup_dir then [] else [OsMkdir backup_dir]) in
  let '(cs, dst) := try_names backup_dir date name MAX_TRIES 0 in
  (pre ++ cs,
   match dst with Some d => [(db_path, d)] | None => [] end,
   true).

End Os.

(** The spec's reading of the names tried after a clash:
    ["(n)-<date>-<name>"] in the backup directory. *)
Definition spec_candidate (backup_dir date name : string) (n : nat) : string :=
  Path.join backup_dir ("(" ++ Py.str_nat n ++ ")-" ++ date ++ "-" ++ name)%string.

(** A file system given as the list of paths that exist. *)
Definition fs_exists (fs : list string) (p : string) : bool :=
  existsb (String.eqb p) fs.

End Backup.

(* ------------------------------------------------------------------ *)
(** ** The end of [Fetch.auto_web_metadata] (src/version/database/fetch.py) *)
Module Fetch.

(** What the run emits. *)
Inductive event :=
| AUTO_METADATA_PROGRESS (msg : string)
| FINISHED (ok : bool)
| LogE (msg : string).

(** How the run ends: normally, or by an exception. *)
Inductive ending := Normal | Exception (exn : string).

(** Python attribute lookup on a [str]: the methods a string has
    (those used in this code base among them); any other name raises
    AttributeError. *)
Definition str_has_attr (attr : string) : bool :=
  existsb (String.eqb attr)
    ["format"; "encode"; "lower"; "upper"; "capitalize"; "replace"; "split";
     "strip"; "rstrip"; "lstrip"; "join"; "startswith"; "endswith"; "find"].

(**
<<
gui_constants.GLOBAL_EHEN_LOCK = False
if not error_galleries:
    self.AUTO_METADATA_PROGRESS.emit('Successfully added all galleries to queue!')
    self.FINISHED.emit(True)
else:
    self.AUTO_METADATA_PROGRESS.emit('Could not add {} galleries to queue. Check happypanda.log for more details!'.format(len(error_galleries)))
    for e in error_galleries:
        log_e("An error occured with gallery: {}".e.title.encode(errors='ignore'))
    self.FINISHED.emit(False)
>>
    Given the titles of the failed galleries: the value of the lock, the
    events emitted, and how the run ends. *)
Definition finish_run (error_galleries : list string)
  : bool * list event * ending :=
  let lock := false in
  match error_galleries with
  | [] =>
      (lock, [AUTO_METADATA_PROGRESS "Successfully added all galleries to queue!";
              FINISHED true], Normal)
  | e :: _ =>
      let ev1 := AUTO_METADATA_PROGRESS
        ("Could not add " ++ Py.str_nat (length error_galleries) ++
         " galleries to queue. Check happypanda.log for more details!")%string in
      (* first iteration: the attribute [e] of the string literal *)
      if str_has_attr "e" then
        (lock, [ev1; LogE ("An error occured with gallery: " ++ e)%string;
                FINISHED false], Normal)
      else (lock, [ev1], Exception "AttributeError")
  end.

End Fetch.

Module FetchMeta.
Import Py ParseMeta ApplyMeta.

(** The gallery fields [fetch_metadata] reads and writes; an empty string
    or an empty dict is false. *)
Record fgallery := mkFGallery {
  fg_title : string;
  fg_artist : string;
  fg_type : string;
  fg_language : string;
  fg_pub_date : string;
  fg_tags : tag_dict;
  fg_temp_url : string
}.

(** What [hen.eh_gallery_parser] returns: ['title'], ['type'],
    ['language'], ['published'] and ['tags']. *)
Record fmeta := mkFMeta {
  fm_title : string;
  fm_type : string;
  fm_language : string;
  fm_published : string;
  fm_tags : tag_dict
}.

Inductive f_result :=
| FReturnGallery (g : fgallery)
| FReturnFalse
| FRaise (exn : string).

Section Fetch.
(** [self._use_ehen_api], [gui_constants.REPLACE_METADATA],
    [hen.eh_gallery_parser] ([None] for a false result) and
    [utils.title_parser] (title, artist, language). *)
Variable use_ehen_api : bool.
Variable REPLACE_METADATA : bool.
Variable eh_gallery_parser : string -> option fmeta.
Variable title_parser : string -> string * string * string.

(** [Fetch.fetch_metadata(gallery, hen)]. [self.AUTO_METADATA_PROGRESS] is
    a bound signal: calling it, as the no-metadata branch does before its
    [return False], raises TypeError.
<<
if not self._use_ehen_api:
    metadata = hen.eh_gallery_parser(gallery.temp_url)
    if not metadata:
        self.AUTO_METADATA_PROGRESS('No metadata found for gallery: {}'.format(gallery.title))
        log_w(...)
        return False
    ...
    title_artist_dict = utils.title_parser(metadata['title'])
    if gui_constants.REPLACE_METADATA:
        gallery.title = title_artist_dict['title']
        if title_artist_dict['artist']:
            gallery.artist = title_artist_dict['artist']
        gallery.type = metadata['type']
        gallery.language = metadata['language']
        gallery.pub_date = metadata['published']
        gallery.tags = metadata['tags']
    else:
        if not gallery.title: gallery.title = title_artist_dict['title']
        if not gallery.artist: gallery.artist = title_artist_dict['artist']
        if not gallery.type: gallery.type = metadata['type']
        if not gallery.language: gallery.language = metadata['language']
        if not gallery.pub_date: gallery.pub_date = metadata['published']
        if not gallery.tags: gallery.tags = metadata['tags']
        else: (the per-namespace merge)
else:
    raise NotImplementedError
return gallery
>> *)
Definition fetch_metadata (g : fgallery) : f_result :=
  if use_ehen_api then FRaise "NotImplementedError"
  else
    match eh_gallery_parser (fg_temp_url g) with
    | None => FRaise "TypeError"
    | Some m =>
        let '(tp_title, tp_artist, _) := title_parser (fm_title m) in
        if REPLACE_METADATA then
          FReturnGallery (mkFGallery tp_title
            (if is_empty tp_artist then fg_artist g else tp_artist)
            (fm_type m) (fm_language m) (fm_published m) (fm_tags m) (fg_temp_url g))
        else
          FReturnGallery (mkFGallery
            (if is_empty (fg_title g) then tp_title else fg_title g)
            (if is_empty (fg_artist g) then tp_artist else fg_artist g)
            (if is_empty (fg_type g) then fm_type m else fg_type g)
            (if is_empty (fg_language g) then fm_language m else fg_language g)
            (if is_empty (fg_pub_date g) then fm_published m else fg_pub_date g)
            (match fg_tags g with
             | [] => fm_tags m
             | gt => merge_tags gt (fm_tags m)
             end)
            (fg_temp_url g))
    end.

End Fetch.
End FetchMeta.

(* ------------------------------------------------------------------ *)
(** ** More Python string primitives *)
Module PyStr.
Import Py.

(** [sub in s] for strings. *)
Fixpoint contains_sub (sub s : string) : bool :=
  String.prefix sub s ||
  match s with
  | EmptyString => false
  | String _ s' => contains_sub sub s'
  end.

(** [c.isspace()] on ASCII: space, [\t \n \v \f \r] and [\x1c]..[\x1f]. *)
Definition is_space (c : ascii) : bool :=
  let n := nat_of_ascii c in
  Nat.eqb n 32 || ((9 <=? n)%nat && (n <=? 13)%nat) ||
  ((28 <=? n)%nat && (n <=? 31)%nat).

Definition is_digit (c : ascii) : bool :=
  let n := nat_of_ascii c in (48 <=? n)%nat && (n <=? 57)%nat.

(** [[a-zA-Z0-9]] *)
Definition is_alnum (c : ascii) : bool := is_digit c || is_upper c || is_lower c.

(** The longest prefix of characters satisfying [p], and the rest. *)
Fixpoint span (p : ascii -> bool) (s : string) : string * string :=
  match s with
  | EmptyString => (EmptyString, EmptyString)
  | String c s' =>
      if p c then let '(a, b) := span p s' in (String c a, b)
      else (EmptyString, s)
  end.

Fixpoint drop_while (p : ascii -> bool) (s : string) : string :=
  match s with
  | EmptyString => EmptyString
  | String c s' => if p c then drop_while p s' else s
  end.

Definition rev_str (s : string) : string :=
  string_of_list_ascii (rev (list_ascii_of_string s)).

(** [s.strip()] *)
Definition strip (s : string) : string :=
  rev_str (drop_while is_space (rev_str (drop_while is_space s))).

(** [s.split()]: the maximal runs of non-whitespace characters. *)
Fixpoint split_ws_aux (s : string) (cur : string) : list string :=
  match s with
  | EmptyString => if String.eqb cur "" then [] else [rev_str cur]
  | String c s' =>
      if is_space c then
        (if String.eqb cur "" then [] else [rev_str cur]) ++ split_ws_aux s' ""
      else split_ws_aux s' (String c cur)
  end.

Definition split_ws (s : string) : list string := split_ws_aux s "".

(** [" ".join(ws)] *)
Definition join_sp (ws : list string) : string := String.concat " " ws.

(** [int(s)] for a string of ASCII digits. *)
Definition dec_value (s : string) : nat :=
  fold_left (fun acc c => acc * 10 + (nat_of_ascii c - 48))
    (list_ascii_of_string s) 0.

End PyStr.

(* ------------------------------------------------------------------ *)
(** ** [EHen]: URL parsing, error pages and the API request
    (src/happypanda/pewnet.py) *)
Module EHen.
Import Py PyStr.

(** A [requests] response: headers (a case-insensitive dict), body text,
    whether [raise_for_status()] passes, and [r.json()] ([None] when the
    body is not JSON and [json()] raises). *)
Record response := mkResp {
  headers : dict string;
  text : string;
  status_ok : bool;
  json : option string
}.

(** [response.headers[k]] on a [CaseInsensitiveDict]. *)
Fixpoint ci_get (k : string) (d : dict string) : option string :=
  match d with
  | [] => None
  | (k', v) :: d' => if String.eqb (lower k) (lower k') then Some v else ci_get k d'
  end.

(** What [handle_error] does: return [None], return a boolean, or raise
    KeyError (no content-type header). *)
Inductive he_result := HReturnsNone | HReturns (b : bool) | HKeyError.

(**
<<
content_type = response.headers['content-type']
text = response.text
if 'image/gif' in content_type:
    ...; return None
elif 'text/html' and 'Your IP address has been' in text:
    ...; return False
elif 'text/html' in content_type and 'You are opening' in text:
    time.sleep(random.randint(10,50))
return True
>>
    [ 'text/html' and X ] is [X], the literal being true; the third branch
    only sleeps. *)
Definition handle_error (r : response) : he_result :=
  match ci_get "content-type" (headers r) with
  | None => HKeyError
  | Some content_type =>
      if contains_sub "image/gif" content_type then HReturnsNone
      else if contains_sub "Your IP address has been" (text r) then HReturns false
      else HReturns true
  end.

(** One start position of [(?<=g/)([0-9]+)/([a-zA-Z0-9]+)]: the digits and
    the token, each as long as possible. *)
Definition match_at (s : string) : option (string * string) :=
  let '(d, r) := span is_digit s in
  if String.eqb d "" then None
  else match r with
       | String c r' =>
           if Ascii.eqb c "/" then
             let '(t, _) := span is_alnum r' in
             if String.eqb t "" then None else Some (d, t)
           else None
       | EmptyString => None
       end.

(** [regex.search]: the leftmost position preceded by ["g/"] where the
    pattern matches. *)
Fixpoint search (s : string) : option (string * string) :=
  match s with
  | EmptyString => None
  | String c rest =>
      let here :=
        if Ascii.eqb c "g" then
          match rest with
          | String c2 r => if Ascii.eqb c2 "/" then match_at r else None
          | EmptyString => None
          end
        else None in
      match here with
      | Some m => Some m
      | None => search rest
      end
  end.

(**
<<
gallery_id_token = regex.search('(?<=g/)([0-9]+)/([a-zA-Z0-9]+)', url)
if not gallery_id_token:
    ...; return None
gallery_id_token = gallery_id_token.group()
gallery_id, gallery_token = gallery_id_token.split('/')
parsed_url = [int(gallery_id), gallery_token]
return parsed_url
>> *)
Definition parse_url (url : string) : option (nat * string) :=
  match search url with
  | None => None
  | Some (d, t) =>
      match Py.split "/" (d ++ "/" ++ t)%string with
      | [gallery_id; gallery_token] => Some (dec_value gallery_id, gallery_token)
      | _ => None   (* the group holds one slash: not reached *)
      end
  end.

(** A dict with integer keys (gallery ids). *)
Fixpoint nget (k : nat) (d : list (nat * string)) : option string :=
  match d with
  | [] => None
  | (k', v) :: d' => if Nat.eqb k k' then Some v else nget k d'
  end.

Fixpoint nset (k : nat) (v : string) (d : list (nat * string))
  : list (nat * string) :=
  match d with
  | [] => [(k, v)]
  | (k', v') :: d' => if Nat.eqb k k' then (k', v) :: d' else (k', v') :: nset k v d'
  end.

(** The loop building [dict_metadata] and [payload['gidlist']]:
<<
for url in list_of_urls:
    parsed_url = EHen.parse_url(url.strip())
    if parsed_url:
        dict_metadata[parsed_url[0]] = url # gallery id
        payload['gidlist'].append(parsed_url)
>> *)
Fixpoint collect (urls : list string) (dict_metadata gidlist : list (nat * string))
  : list (nat * string) * list (nat * string) :=
  match urls with
  | [] => (dict_metadata, gidlist)
  | url :: urls' =>
      match parse_url (strip url) with
      | Some (gid, tok) =>
          collect urls' (nset gid url dict_metadata) (gidlist ++ [(gid, tok)])
      | None => collect urls' dict_metadata gidlist
      end
  end.

(** [EHen.get_metadata(list_of_urls)] (no cookies). [post] is
    [requests.post(self.e_url, json=payload, ...)] on the gid list:
    [None] for a ConnectionError. The lock and the log are left out.
<<
if len(list_of_urls) > 25:
    ...; return None
...
if payload['gidlist']:
    self.begin_lock()
    try:
        r = requests.post(self.e_url, json=payload, timeout=30, headers=self.HEADERS)
    except requests.ConnectionError as err:
        self.end_lock(); ...
        raise app_constants.MetadataFetchFail("connection error")
    self.end_lock()
    if not self.handle_error(r):
        return 'error'
else: return None
try:
    r.raise_for_status()
except:
    ...; return None
return r.json(), dict_metadata
>> *)
Definition get_metadata (post : list (nat * string) -> option response)
    (list_of_urls : list string) : CommenHen.gm_result :=
  if Nat.ltb 25 (length list_of_urls) then CommenHen.GMNone
  else
    let '(dict_metadata, gidlist) := collect list_of_urls [] [] in
    match gidlist with
    | [] => CommenHen.GMNone
    | _ =>
        match post gidlist with
        | None => CommenHen.GMRaise "MetadataFetchFail"
        | Some r =>
            match handle_error r with
            | HKeyError => CommenHen.GMRaise "KeyError"
            | HReturnsNone | HReturns false => CommenHen.GMStr "error"
            | HReturns true =>
                if status_ok r then
                  match json r with
                  | Some j => CommenHen.GMPair j dict_metadata
                  | None => CommenHen.GMRaise "ValueError"
                  end
                else CommenHen.GMNone
            end
        end
    end.

(** [fix_titles]: [html.unescape], then [" ".join(t.split())]. *)
Definition fix_titles (unescape : string -> string) (text : string) : string :=
  join_sp (split_ws (unescape text)).

End EHen.

(* ------------------------------------------------------------------ *)
(** ** [CommenHen.add_to_queue] and [CommenHen.check_cookie]
    (src/happypanda/pewnet.py) *)
Module CommenHenQ.
Import Py CommenHen.

(** What [add_to_queue] returns: [1], [None], the pair [process_queue]
    returned (two names, or two characters), what [parse_metadata]
    returned; or the exception it raises. *)
Inductive aq_result (R : Type) :=
| AQOne
| AQNone
| AQRaw (api_data : string) (galleryid_dict : list (nat * string))
| AQRawChars (api_data galleryid_dict : ascii)
| AQParsed (r : R)
| AQRaise (exn : string).
Arguments AQOne {R}. Arguments AQNone {R}. Arguments AQRaw {R}.
Arguments AQRawChars {R}. Arguments AQParsed {R}. Arguments AQRaise {R}.

Section Queue.
Variable R : Type.
(** [self.get_metadata] and [self.parse_metadata]; the latter returns a
    value or raises (the name of the exception). *)
Variable get_metadata : list string -> gm_result.
Variable parse_metadata : string -> list (nat * string) -> R + string.
(** [self.parse_metadata] called with two one-character strings, the
    characters of a two-character string that [process_queue] unpacked. *)
Variable parse_metadata_chars : ascii -> ascii -> R + string.

(** [return self.parse_metadata( *self.process_queue())] or
    [return self.process_queue()], under [except TypeError: return None];
    [*None] raises TypeError. *)
Definition process (parse : bool) (queue : list string)
  : aq_result R * list string * option (list string) :=
  let '(o, q', arg) := process_queue get_metadata queue in
  let r :=
    match o with
    | Returns None => AQNone
    | Returns (Some (a, g)) =>
        if parse then
          match parse_metadata a g with
          | inl x => AQParsed x
          | inr e => if String.eqb e "TypeError" then AQNone else AQRaise e
          end
        else AQRaw a g
    | ReturnsChars a b =>
        if parse then
          match parse_metadata_chars a b with
          | inl x => AQParsed x
          | inr e => if String.eqb e "TypeError" then AQNone else AQRaise e
          end
        else AQRawChars a b
    | Raises e => if String.eqb e "TypeError" then AQNone else AQRaise e
    end in
  (r, q', arg).

(**
<<
if url:
    self.QUEUE.append(url)
    ...
try:
    if proc:
        if parse:
            return self.parse_metadata( *self.process_queue())
        return self.process_queue()
    if len(self.QUEUE) >= self._QUEUE_LIMIT:
        if parse:
            return self.parse_metadata( *self.process_queue())
        return self.process_queue()
    else:
        return 1
except TypeError:
    return None
>>
    The result, the queue afterwards, and the urls given to
    [get_metadata] (if it was called). *)
Definition add_to_queue (url : string) (proc parse : bool) (queue : list string)
  : aq_result R * list string * option (list string) :=
  let q := if String.eqb url "" then queue else queue ++ [url] in
  if proc then process parse q
  else if Nat.leb QUEUE_LIMIT (length q) then process parse q
  else (AQOne, q, None).

End Queue.

(** [CommenHen.check_cookie(cookie)] on the class's [COOKIES] dict:
<<
cookies = self.COOKIES.keys()
present = []
for c in cookie:
    if c in cookies:
        present.append(True)
    else:
        present.append(False)
if not all(present):
    ...
    self.COOKIES.update(cookie)
>>
    [COOKIES.update(cookie)] sets the keys of [cookie] in turn. *)
Definition dict_update {V} (d u : dict V) : dict V :=
  fold_left (fun acc kv => set (fst kv) (snd kv) acc) u d.

Definition check_cookie (COOKIES cookie : dict string) : dict string :=
  let present := map (fun kv => has_key (fst kv) COOKIES) cookie in
  if forallb (fun b => b) present then COOKIES
  else dict_update COOKIES cookie.

End CommenHenQ.

(* ------------------------------------------------------------------ *)
(** ** [EHen.parse_metadata] (src/happypanda/pewnet.py) *)

Module EHenParse.
Import Py EHen.

(** A gallery of [metadata_json['gmetadata']], with the fields the loop
    reads: its [gid], whether it has an ['error'] key, and the other fields
    ([None] for a missing key). *)
Record api_gallery := mkApiGallery {
  ag_gid : nat;
  ag_error : bool;
  ag_title : option string;
  ag_title_jpn : option string;
  ag_category : option string;
  ag_posted : option string;
  ag_tags : option (list string)
}.

(** [new_gallery]: [title] ([def] and, if present, [jpn]), [type],
    [pub_date] and [tags]. *)
Record new_gallery := mkNewGallery {
  ng_title_def : string;
  ng_title_jpn : option string;
  ng_type : string;
  ng_pub_date : string;
  ng_tags : ParseMeta.tag_dict
}.

(** A parsed gallery, or the exception raised while parsing it. *)
Inductive pm_result (A : Type) :=
| PMReturn (a : A)
| PMRaise (exn : string).
Arguments PMReturn {A}. Arguments PMRaise {A}.

Section Parse.
(** [html.unescape], [int] on a string ([None]: ValueError) and
    [datetime.fromtimestamp]. *)
Variable unescape : string -> string.
Variable py_int : string -> option nat.
Variable fromtimestamp : nat -> string.

(**
<<
try:
    gallery['title_jpn'] = fix_titles(gallery['title_jpn'])
    gallery['title'] = fix_titles(gallery['title'])
    new_gallery['title'] = {'def':gallery['title'], 'jpn':gallery['title_jpn']}
except KeyError:
    gallery['title'] = fix_titles(gallery['title'])
    new_gallery['title'] = {'def':gallery['title']}
new_gallery['type'] = gallery['category']
new_gallery['pub_date'] = datetime.fromtimestamp(int(gallery['posted']))
tags = ... (the tag loop)
new_gallery['tags'] = tags
>> *)
Definition parse_gallery (g : api_gallery) : pm_result new_gallery :=
  let titles :=
    match ag_title_jpn g, ag_title g with
    | Some tj, Some t => Some (fix_titles unescape t, Some (fix_titles unescape tj))
    | None, Some t => Some (fix_titles unescape t, None)
    | _, None => None
    end in
  match titles with
  | None => PMRaise "KeyError"
  | Some (tdef, tjpn) =>
      match ag_category g with
      | None => PMRaise "KeyError"
      | Some cat =>
          match ag_posted g with
          | None => PMRaise "KeyError"
          | Some p =>
              match py_int p with
              | None => PMRaise "ValueError"
              | Some n =>
                  match ag_tags g with
                  | None => PMRaise "KeyError"
                  | Some ts =>
                      match ParseMeta.parse_tags ts with
                      | Some tags => PMReturn (mkNewGallery tdef tjpn cat (fromtimestamp n) tags)
                      | None => PMRaise "KeyError"
                      end
                  end
              end
          end
      end
  end.

(**
<<
parsed_metadata = {}
for gallery in metadata_json['gmetadata']:
    url = dict_metadata[gallery['gid']]
    if invalid_token_check(gallery):
        ...
        parsed_metadata[url] = new_gallery
    else:
        log_e(...)
return parsed_metadata
>> *)
Fixpoint parse_loop (gs : list api_gallery) (dict_metadata : list (nat * string))
    (parsed : dict new_gallery) : pm_result (dict new_gallery) :=
  match gs with
  | [] => PMReturn parsed
  | g :: gs' =>
      match nget (ag_gid g) dict_metadata with
      | None => PMRaise "KeyError"
      | Some url =>
          if ag_error g then parse_loop gs' dict_metadata parsed
          else match parse_gallery g with
               | PMRaise e => PMRaise e
               | PMReturn ng => parse_loop gs' dict_metadata (set url ng parsed)
               end
      end
  end.

(** [EHen.parse_metadata(metadata_json, dict_metadata)] on the list
    [metadata_json['gmetadata']]. *)
Definition parse_metadata (gs : list api_gallery) (dict_metadata : list (nat * string))
  : pm_result (dict new_gallery) :=
  parse_loop gs dict_metadata [].

End Parse.
End EHenParse.

(* ------------------------------------------------------------------ *)
(** ** Sample inputs *)

(** A queued single-URL item named [foo.zip], downloaded into [dl], with a
    one-chunk response. *)
Definition sample_item : Downloader.item :=
  Downloader.mkItem "http://example.org/a.zip" "" "foo.zip" 0 0
    Downloader.IN_QUEUE.

Definition sample_run (es : list Downloader.event) : Downloader.config :=
  Downloader.run "dl" "u" 1024 [1024] (fun _ _ => true) es
    (Downloader.queued sample_item []).

(** A gallery holding [{"Artist": ["a"]}] and a record with [{"Artist": ["b"]}]. *)
Definition sample_gallery : ApplyMeta.gallery :=
  ApplyMeta.mkGallery "" "" "" "Other" "" [("Artist", ["a"])] "" "http://g/1".
Definition sample_record : ApplyMeta.record :=
  ApplyMeta.mkRecord "[b] Title" None "Manga" "2016-10-25" [("Artist", ["b"])]
    (Some "http://g/1").

(* ------------------------------------------------------------------ *)
(** ** Auxiliary predicates of the proofs *)
Module Aux.
Import Py Downloader.

(** How the contributions of a list of raw tags land on an existing entry. *)
Definition combine (old : option (list string)) (xs : list string)
  : option (list string) :=
  match old, xs with
  | Some l, _ => Some (l ++ xs)
  | None, [] => None
  | None, _ => Some xs
  end.

(** Without [cancel()] calls the worker's writes keep an item on the
    path [IN_QUEUE -> DOWNLOADING -> FINISHED]. *)
Definition no_cancel_inv (c : config) : Prop :=
  (cpc c = WQueued /\ current_state (citem c) = IN_QUEUE) \/
  (exists f ds, cpc c = WLoop f ds /\ current_state (citem c) = DOWNLOADING) \/
  (exists f, cpc c = WPost f false /\ current_state (citem c) = DOWNLOADING) \/
  (cpc c = WDone /\ current_state (citem c) = FINISHED).

Definition no_paren (s : string) : Prop := forall c, In c (list_ascii_of_string s) -> c <> ")"%char.

(** Every character of [s] satisfies [p]. *)
Definition all_chars (p : ascii -> bool) (s : string) : Prop :=
  forall c, In c (list_ascii_of_string s) -> p c = true.

(** [s] is empty or its first character fails [p]: where a greedy
    character-class match stops. *)
Definition starts_not (p : ascii -> bool) (s : string) : Prop :=
  match s with String c _ => p c = false | EmptyString => True end.

(** The url [u], stripped, parses to gallery id [g]. *)
Definition hits (g : nat) (u : string) : bool :=
  match EHen.parse_url (PyStr.strip u) with
  | Some (g', _) => Nat.eqb g g'
  | None => false
  end.

(** A word of [str.split()]: non-empty, without whitespace. *)
Definition good_word (w : string) : Prop :=
  w <> "" /\ forall c, In c (list_ascii_of_string w) -> PyStr.is_space c = false.

(** What [parse_metadata]'s tag loop keeps: distinct namespaces, a
    ["default"] entry, and no empty list outside ["default"]. *)
Definition tag_inv (d : ParseMeta.tag_dict) : Prop :=
  ApplyMeta.keys_distinct (map fst d) = true /\ get "default" d <> None /\
  forall k l, get k d = Some l -> k <> "default" -> l <> [].

(** One iteration of [_connectHooks] on a connection that resolves. *)
Definition connect_step (hs : Plugins.hooks) (c : Plugins.connection) : Plugins.hooks :=
  match get (Plugins.pluginid c) hs with
  | Some p =>
      match get (Plugins.h_name c) p with
      | Some h =>
          set (Plugins.pluginid c)
            (set (Plugins.h_name c) (Plugins.add_handler (Plugins.conn_handler c) h) p) hs
      | None => hs
      end
  | None => hs
  end.

(** [es] holds only [cancel()] calls from other threads, no worker step. *)
Definition only_cancels (es : list Downloader.event) : bool :=
  forallb (fun e => match e with Downloader.Cancel => true | Downloader.Work => false end) es.

End Aux.

(* ================================================================== *)
(** * Properties *)

Example parse_tags_sample :
  ParseMeta.parse_tags ["artist:jane doe"; "translated"; "full_color"]
  = Some [("default", ["translated"; "full color"]); ("Artist", ["jane doe"])].
Proof. reflexivity. Qed.

Module PyFacts.
Import Py.

Lemma get_set {V} (k k' : string) (v : V) (d : dict V) :
  get k (set k' v d) = if String.eqb k k' then Some v else get k d.
Proof.
  induction d as [|[k0 v0] d IH]; cbn [set get].
  - destruct (String.eqb k k'); reflexivity.
  - destruct (String.eqb k' k0) eqn:E1.
    + apply String.eqb_eq in E1; subst k0. cbn [get].
      destruct (String.eqb k k'); reflexivity.
    + cbn [get]. rewrite IH.
      destruct (String.eqb k k') eqn:E2; [|reflexivity].
      apply String.eqb_eq in E2; subst k.
      rewrite E1; try rewrite String.eqb_refl; reflexivity.
Qed.

Lemma upper_char_not_d (c : ascii) : upper_char c <> "d"%char.
Proof.
  destruct c as [[] [] [] [] [] [] [] []]; vm_compute; discriminate.
Qed.

Lemma capitalize_not_default (s : string) : capitalize s <> "default".
Proof.
  destruct s as [|c s]; simpl; [discriminate|].
  intros H. injection H as H _. exact (upper_char_not_d c H).
Qed.

End PyFacts.

Module ParseMetaFacts.
Import Py PyFacts ParseMeta Aux.

Lemma combine_nil old : combine old [] = old.
Proof. destruct old; simpl; [rewrite app_nil_r|]; reflexivity. Qed.

Lemma combine_app old xs ys :
  combine (combine old xs) ys = combine old (xs ++ ys).
Proof.
  destruct old as [l|], xs as [|x xs], ys as [|y ys]; simpl;
    rewrite ?app_nil_r, <- ?app_assoc; reflexivity.
Qed.

Lemma tags_loop_spec (ts : list string) (d : tag_dict) :
  get "default" d <> None ->
  exists d', tags_loop ts d = Some d' /\
    get "default" d' <> None /\
    forall k, get k d' =
      combine (get k d)
        (map spec_value (filter (fun t => String.eqb (spec_key t) k) ts)).
Proof.
  revert d; induction ts as [|t ts IH]; intros d Hdef.
  - exists d; repeat split; [assumption|]. intros k; simpl.
    rewrite combine_nil; reflexivity.
  - simpl. unfold spec_key at 1, spec_value at 1.
    destruct (contains_char ":" t) eqn:Hc.
    + set (ns := capitalize (nth 0 (split ":" t) "")).
      set (tag := norm (nth 1 (split ":" t) "")).
      set (tags1 := if has_key ns d then d else set ns [] d).
      assert (Hg1 : exists l, get ns tags1 = Some l /\
                (get ns d = Some l \/ (get ns d = None /\ l = []))).
      { unfold tags1, has_key. destruct (get ns d) as [l|] eqn:E.
        - exists l; auto.
        - exists []. rewrite get_set, String.eqb_refl. auto. }
      destruct Hg1 as [l [Hl Hor]].
      assert (Ht1 : forall k, k <> ns -> get k tags1 = get k d).
      { intros k Hk. unfold tags1. destruct (has_key ns d); [reflexivity|].
        rewrite get_set. apply String.eqb_neq in Hk. rewrite Hk. reflexivity. }
      unfold append_to. rewrite Hl.
      set (d2 := set ns (l ++ [tag]) tags1).
      assert (Hdef2 : get "default" d2 <> None).
      { unfold d2. rewrite get_set.
        destruct (String.eqb "default" ns); [discriminate|].
        rewrite Ht1; [assumption|]. intros E. symmetry in E.
        exact (capitalize_not_default _ E). }
      destruct (IH d2 Hdef2) as [d' [Hrun [Hdef' Hk]]].
      exists d'; repeat split; [exact Hrun|exact Hdef'|].
      intros k. rewrite Hk. unfold d2. rewrite get_set.
      fold ns. destruct (String.eqb ns k) eqn:E.
      * apply String.eqb_eq in E; subst k. rewrite String.eqb_refl.
        simpl. fold tag.
        destruct Hor as [Hd|[Hd ->]]; rewrite Hd; simpl;
          rewrite Hc, <- ?app_assoc; reflexivity.
      * assert (Hne : k <> ns).
        { intros ->. rewrite String.eqb_refl in E. discriminate. }
        apply String.eqb_neq in Hne as Hne'. rewrite Hne'.
        rewrite Ht1 by exact Hne. reflexivity.
    + unfold append_to.
      destruct (get "default" d) as [l|] eqn:Hd; [|contradiction].
      set (d2 := set "default" (l ++ [norm t]) d).
      assert (Hdef2 : get "default" d2 <> None).
      { unfold d2. rewrite get_set. simpl. discriminate. }
      destruct (IH d2 Hdef2) as [d' [Hrun [Hdef' Hk]]].
      exists d'; repeat split; [exact Hrun|exact Hdef'|].
      intros k. rewrite Hk. unfold d2. rewrite get_set.
      destruct (String.eqb "default" k) eqn:E.
      * apply String.eqb_eq in E; subst k. simpl. rewrite Hd, Hc.
        simpl. rewrite <- app_assoc. reflexivity.
      * rewrite String.eqb_sym, E. reflexivity.
Qed.

End ParseMetaFacts.

Module ApplyMetaFacts.
Import Py PyFacts ParseMeta ApplyMeta.

Lemma get_absent {V} (k : string) (d : dict V) :
  existsb (String.eqb k) (map fst d) = false -> get k d = None.
Proof.
  induction d as [|[k0 v0] d IH]; cbn [get map existsb fst]; [reflexivity|].
  intros H. apply orb_false_iff in H as [H1 H2]. rewrite H1. auto.
Qed.

Lemma add_missing_in cur new t :
  In t (add_missing cur new) <-> In t cur \/ In t new.
Proof.
  revert cur; induction new as [|x new IH]; intros cur; simpl.
  - tauto.
  - destruct (existsb (String.eqb x) cur) eqn:E; rewrite IH.
    + apply existsb_exists in E as [y [Hy Ey]].
      apply String.eqb_eq in Ey; subst y.
      split; [tauto|]. intros [H|[<-|H]]; auto.
    + rewrite in_app_iff. simpl. tauto.
Qed.

Lemma add_missing_prefix cur new : exists s, add_missing cur new = cur ++ s.
Proof.
  revert cur; induction new as [|x new IH]; intros cur; simpl.
  - exists []. rewrite app_nil_r. reflexivity.
  - destruct (existsb (String.eqb x) cur).
    + apply IH.
    + destruct (IH (cur ++ [x])) as [s Hs]. exists (x :: s).
      rewrite Hs, <- app_assoc. reflexivity.
Qed.

Lemma get_merge_tags (gt dt : tag_dict) (ns : string) :
  keys_distinct (map fst dt) = true ->
  get ns (merge_tags gt dt) =
  match get ns dt with
  | None => get ns gt
  | Some l => Some (match get ns gt with
                    | Some old => add_missing old l
                    | None => l
                    end)
  end.
Proof.
  revert gt; induction dt as [|[ns0 l0] dt IH]; intros gt Hk; [reflexivity|].
  cbn [map fst keys_distinct] in Hk. apply andb_true_iff in Hk as [Hn Hk].
  apply negb_true_iff in Hn.
  cbn [merge_tags get].
  set (gt' := match get ns0 gt with
              | Some old => set ns0 (add_missing old l0) gt
              | None => set ns0 l0 gt end).
  assert (Hm : merge_tags gt ((ns0, l0) :: dt) = merge_tags gt' dt).
  { unfold gt'. simpl. destruct (get ns0 gt); reflexivity. }
  replace (match get ns0 gt with
           | Some old => merge_tags (set ns0 (add_missing old l0) gt) dt
           | None => merge_tags (set ns0 l0 gt) dt end)
    with (merge_tags gt' dt)
    by (unfold gt'; destruct (get ns0 gt); reflexivity).
  rewrite IH by exact Hk.
  destruct (String.eqb ns ns0) eqn:E.
  - apply String.eqb_eq in E; subst ns0.
    rewrite (get_absent ns dt Hn).
    unfold gt'. destruct (get ns gt); rewrite get_set, String.eqb_refl;
      reflexivity.
  - assert (Hg : get ns gt' = get ns gt).
    { unfold gt'. destruct (get ns0 gt); rewrite get_set, E; reflexivity. }
    rewrite Hg. reflexivity.
Qed.

End ApplyMetaFacts.

(** C3: [parse_metadata] files every colon-containing raw tag under its
    capitalised namespace with the lower-cased, underscores-to-spaces tag
    text, and every colon-less tag under ["default"]: namespace by
    namespace, the normalised mapping is the one the spec describes. On the
    sample [["artist:jane doe"; "translated"; "full_color"]] it is the dict
    [{"Artist": ["jane doe"], "default": ["translated", "full color"]}]. *)
Theorem parse_metadata_tags_normalised :
  (forall ts : list string,
     exists d, ParseMeta.parse_tags ts = Some d /\
       forall k, Py.get k d = ParseMeta.spec_lookup ts k) /\
  (exists d,
     ParseMeta.parse_tags ["artist:jane doe"; "translated"; "full_color"]
       = Some d /\
     forall k, Py.get k d =
       Py.get k [("Artist", ["jane doe"]); ("default", ["translated"; "full color"])]).
Proof.
  split.
  - intros ts.
    destruct (ParseMetaFacts.tags_loop_spec ts [("default", [])])
      as [d [Hrun [_ Hk]]]; [discriminate|].
    exists d; split; [exact Hrun|]. intros k. rewrite Hk.
    unfold ParseMeta.spec_lookup. simpl.
    destruct (String.eqb k "default") eqn:E.
    + reflexivity.
    + destruct (filter (fun t => String.eqb (ParseMeta.spec_key t) k) ts);
        reflexivity.
  - exists [("default", ["translated"; "full color"]); ("Artist", ["jane doe"])].
    split; [reflexivity|].
    intros k. simpl.
    destruct (String.eqb k "default") eqn:E1, (String.eqb k "Artist") eqn:E2;
      try reflexivity.
    apply String.eqb_eq in E1, E2. congruence.
Qed.

(** C2: for every gallery and every canonical record, merge mode
    ([append = true]) unions the tag lists namespace by namespace (the
    gallery's list is kept as a prefix and the result holds exactly the tags
    of both), while replace mode ([append = false]) sets the gallery's tag
    mapping to the record's. With [{"Artist": ["a"]}] on the gallery and
    [{"Artist": ["b"]}] in the record, merge gives [{"Artist": ["a", "b"]}]
    and replace gives [{"Artist": ["b"]}]. *)
Theorem apply_metadata_merge_or_replace_tags
  (USE_JPN_TITLE : bool) (title_parser : string -> string * string * string)
  (g : ApplyMeta.gallery) (d : ApplyMeta.record)
  (Hcanon : ApplyMeta.canonical d = true) :
  (exists g', ApplyMeta.apply_metadata USE_JPN_TITLE title_parser g d true
                = Some g' /\
     forall ns,
       (forall t, In t (ApplyMeta.tags_of (ApplyMeta.g_tags g') ns) <->
                  In t (ApplyMeta.tags_of (ApplyMeta.g_tags g) ns) \/
                  In t (ApplyMeta.tags_of (ApplyMeta.d_tags d) ns)) /\
       (exists s, ApplyMeta.tags_of (ApplyMeta.g_tags g') ns =
                  ApplyMeta.tags_of (ApplyMeta.g_tags g) ns ++ s)) /\
  (exists g', ApplyMeta.apply_metadata USE_JPN_TITLE title_parser g d false
                = Some g' /\
     ApplyMeta.g_tags g' = ApplyMeta.d_tags d) /\
  (ApplyMeta.g_tags g = [("Artist", ["a"])] ->
   ApplyMeta.d_tags d = [("Artist", ["b"])] ->
   (exists g', ApplyMeta.apply_metadata USE_JPN_TITLE title_parser g d true
                 = Some g' /\ ApplyMeta.g_tags g' = [("Artist", ["a"; "b"])]) /\
   (exists g', ApplyMeta.apply_metadata USE_JPN_TITLE title_parser g d false
                 = Some g' /\ ApplyMeta.g_tags g' = [("Artist", ["b"])])).
Proof.
  unfold ApplyMeta.canonical in Hcanon.
  apply andb_true_iff in Hcanon as [Hkeys Hart].
  assert (Hta : ApplyMeta.tag_artist (ApplyMeta.d_tags d) <> None).
  { unfold ApplyMeta.tag_artist.
    destruct (Py.get "Artist" (ApplyMeta.d_tags d)) as [[|a l]|];
      discriminate. }
  assert (Hmerge : exists g', ApplyMeta.apply_metadata USE_JPN_TITLE
              title_parser g d true = Some g' /\
            ApplyMeta.g_tags g' = match ApplyMeta.g_tags g with
                                  | [] => ApplyMeta.d_tags d
                                  | gt => ApplyMeta.merge_tags gt
                                            (ApplyMeta.d_tags d)
                                  end).
  { unfold ApplyMeta.apply_metadata.
    destruct (title_parser _) as [[tpt tpa] tpl].
    simpl negb. cbv iota beta.
    destruct (ApplyMeta.is_empty (ApplyMeta.g_artist g)).
    - destruct (ApplyMeta.tag_artist (ApplyMeta.d_tags d)) as [[a|]|];
        [| |contradiction]; eexists; split; reflexivity.
    - eexists; split; reflexivity. }
  assert (Hrepl : exists g', ApplyMeta.apply_metadata USE_JPN_TITLE
              title_parser g d false = Some g' /\
            ApplyMeta.g_tags g' = ApplyMeta.d_tags d).
  { unfold ApplyMeta.apply_metadata.
    destruct (title_parser _) as [[tpt tpa] tpl].
    simpl negb. cbv iota beta.
    destruct (ApplyMeta.tag_artist (ApplyMeta.d_tags d)) as [ta|];
      [|contradiction]. eexists; split; reflexivity. }
  split; [|split; [exact Hrepl|]].
  - destruct Hmerge as [g' [Hrun Htags]].
    exists g'; split; [exact Hrun|]. intros ns.
    unfold ApplyMeta.tags_of. rewrite Htags.
    destruct (ApplyMeta.g_tags g) as [|p gt] eqn:Hg.
    + simpl. split; [tauto|]. exists (ApplyMeta.tags_of (ApplyMeta.d_tags d) ns).
      reflexivity.
    + rewrite ApplyMetaFacts.get_merge_tags by exact Hkeys.
      destruct (Py.get ns (ApplyMeta.d_tags d)) as [l|];
        destruct (Py.get ns (p :: gt)) as [old|].
      * split; [intros t; apply ApplyMetaFacts.add_missing_in|].
        apply ApplyMetaFacts.add_missing_prefix.
      * split; [simpl; tauto|]. exists l. reflexivity.
      * split; [simpl; tauto|]. exists []. rewrite app_nil_r. reflexivity.
      * split; [simpl; tauto|]. exists []. reflexivity.
  - intros Hg Hd. split.
    + destruct Hmerge as [g' [Hrun Htags]]. exists g'; split; [exact Hrun|].
      rewrite Htags, Hg, Hd. reflexivity.
    + destruct Hrepl as [g' [Hrun Htags]]. exists g'; split; [exact Hrun|].
      rewrite Htags, Hd. reflexivity.
Qed.

Module DownloaderFacts.
Import Py Downloader Aux.

Section Facts.
Variable base fresh : string.
Variable content_length : nat.
Variable chunks : list nat.
Variable rename_ok : string -> string -> bool.

Local Abbreviation run := (run base fresh content_length chunks rename_ok).
Local Abbreviation step := (step base fresh content_length chunks rename_ok).
Local Abbreviation work := (work base fresh content_length chunks rename_ok).

Lemma run_cons e es c : run (e :: es) c = run es (step e c).
Proof. reflexivity. Qed.

Lemma run_app es1 es2 c : run (es1 ++ es2) c = run es2 (run es1 c).
Proof. unfold Downloader.run. apply fold_left_app. Qed.

Lemma run_invariant (P : config -> Prop) :
  (forall e c, P c -> P (step e c)) -> forall es c, P c -> P (run es c).
Proof.
  intros Hstep es; induction es as [|e es IH]; intros c Hc; [exact Hc|].
  rewrite run_cons. apply IH, Hstep, Hc.
Qed.

Lemma not_in_remove_file f fs : ~ In f (remove_file f fs).
Proof.
  unfold remove_file. rewrite filter_In, String.eqb_refl. simpl.
  intros [_ H]; discriminate.
Qed.

(** Once a per-chunk check of [_download_with_simple_method] has seen
    [CANCELLED], whatever the worker and other threads do afterwards, the
    state stays [CANCELLED], [item.file] is not written, and the finished
    worker has removed the part file. *)
Lemma cancel_observed_sticks (c : config) (fname : string) x xs :
  cpc c = WLoop fname (x :: xs) ->
  current_state (citem c) = CANCELLED ->
  forall es, let c' := run es (work c) in
    current_state (citem c') = CANCELLED /\
    file (citem c') = file (citem c) /\
    (cpc c' = WDone -> ~ In (part fname) (cfs c')).
Proof.
  intros Hpc Hst es.
  set (f0 := file (citem c)).
  set (P := fun c' : config =>
    current_state (citem c') = CANCELLED /\ file (citem c') = f0 /\
    (cpc c' = WPost fname true \/
     (cpc c' = WDone /\ ~ In (part fname) (cfs c')))).
  assert (HP : forall e c', P c' -> P (step e c')).
  { intros e c' [Hs [Hf Hpc']]. destruct e; simpl.
    - unfold Downloader.work.
      destruct Hpc' as [Hp|[Hp Hn]]; rewrite Hp.
      + repeat split; try assumption. right; split; [reflexivity|].
        apply not_in_remove_file.
      + repeat split; try assumption. right; split; assumption.
    - repeat split; try assumption. }
  assert (H0 : P (work c)).
  { unfold Downloader.work. rewrite Hpc, Hst. simpl.
    repeat split; [exact Hst|left; reflexivity]. }
  destruct (run_invariant P HP es (work c) H0) as [Hs [Hf Hp]].
  repeat split; [exact Hs|exact Hf|].
  intros Hd. destruct Hp as [Hp|[_ Hn]]; [congruence|exact Hn].
Qed.

Lemma work_no_cancel_inv c :
  no_cancel_inv c ->
  no_cancel_inv (work c) /\
  rank (current_state (citem c)) <= rank (current_state (citem (work c))).
Proof.
  unfold Downloader.work.
  intros [[Hp Hs]|[[f [ds [Hp Hs]]]|[[f [Hp Hs]]|[Hp Hs]]]]; rewrite Hp.
  - simpl. split; [|rewrite Hs; simpl; lia].
    right; left. eexists; eexists; split; reflexivity.
  - destruct ds as [|d ds]; simpl.
    + split; [|apply le_n]. right; right; left.
      exists f; split; [reflexivity|exact Hs].
    + rewrite Hs. simpl.
      destruct (Nat.eqb d 0); simpl; rewrite ?Hs;
        (split; [|apply le_n]); right; left; exists f, ds;
        (split; [reflexivity|exact Hs]).
  - destruct (rename_ok (part f) f); simpl;
      (split; [right; right; right; split; reflexivity|rewrite Hs; simpl; lia]).
  - split; [right; right; right; split; assumption|apply le_n].
Qed.

End Facts.
End DownloaderFacts.

Module DownloaderFacts2.
Import Py Downloader DownloaderFacts.

(** Until the worker is done, [item.file] is not written. *)
Lemma file_unwritten_until_done base fresh cl chunks rn (c : config) es :
  cpc (run base fresh cl chunks rn es c) <> WDone ->
  file (citem (run base fresh cl chunks rn es c)) = file (citem c).
Proof.
  set (f0 := file (citem c)).
  set (Q := fun c' : config => cpc c' <> WDone -> file (citem c') = f0).
  assert (HQ : forall e c', Q c' -> Q (step base fresh cl chunks rn e c')).
  { intros e c' Hq Hne. destruct e; [|exact (Hq Hne)].
    simpl in Hne |- *. unfold Downloader.work in Hne |- *.
    destruct (cpc c') as [|f [|d ds]|f [|]|] eqn:Hp;
      try (exact (Hq Hne)); simpl in Hne |- *.
    - apply Hq. rewrite Hp. discriminate.
    - apply Hq. rewrite Hp. discriminate.
    - destruct (dl_state_eqb _ _); simpl; [apply Hq; rewrite Hp; discriminate|].
      destruct (Nat.eqb d 0); simpl; apply Hq; rewrite Hp; discriminate.
    - apply Hq. rewrite Hp. discriminate.
    - destruct (rn (part f) f); simpl in Hne; congruence. }
  intros Hne. exact (run_invariant base fresh cl chunks rn Q HQ es c
                       (fun _ => eq_refl) Hne).
Qed.

End DownloaderFacts2.

Module RenameFacts.
Import Downloader.

Lemma rename_loop_bound rn fname fpart max_loop fuel n :
  n <= max_loop -> fst (rename_loop rn fname fpart max_loop fuel n) <= max_loop.
Proof.
  revert n; induction fuel as [|fuel IH]; intros n Hn; simpl; [exact Hn|].
  destruct (Nat.ltb n max_loop) eqn:Hlt; [|exact Hn].
  apply Nat.ltb_lt in Hlt.
  destruct (if negb (String.eqb (snd (Path.split fname)) "") then _ else _)
    as [src tgt].
  destruct (rn src tgt); [simpl; lia|].
  specialize (IH (S n) Hlt).
  destruct (rename_loop rn fname fpart max_loop fuel (S n)) as [n' tries].
  exact IH.
Qed.

End RenameFacts.

Module WorkerFacts.
Import Py Downloader Aux.

Lemma rename_file_name rn f fp : fst (rename_file rn f fp 100) = f.
Proof.
  unfold rename_file.
  pose proof (RenameFacts.rename_loop_bound rn f fp 100 100 0 ltac:(lia)) as H.
  destruct (rename_loop rn f fp 100 100 0) as [n tries].
  simpl in H |- *. destruct (Nat.ltb 100 n) eqn:E; [|reflexivity].
  apply Nat.ltb_lt in E. lia.
Qed.

Lemma part_neq f : part f <> f.
Proof.
  intros H. apply (f_equal String.length) in H. unfold part in H.
  assert (Hl : forall a b, String.length (a ++ b) = String.length a + String.length b).
  { induction a as [|c a IH]; intros b; simpl; [reflexivity|rewrite IH; reflexivity]. }
  rewrite Hl in H. simpl in H. lia.
Qed.

Section Worker.
Variable base fresh : string.
Variable content_length : nat.
Variable chunks : list nat.
Variable rename_ok : string -> string -> bool.

Local Abbreviation run := (run base fresh content_length chunks rename_ok).

(** [cancel()] calls alone leave the worker where it is, the files as they
    are, and change nothing of the item but its state. *)
Lemma run_cancels cs c :
  only_cancels cs = true ->
  exists s, run cs c = mkConfig (cpc c) (set_state s (citem c)) (cfs c).
Proof.
  revert c; induction cs as [|e cs IH]; intros c H.
  - exists (current_state (citem c)). destruct c as [p [u f n t cs0 st] fs]. reflexivity.
  - destruct e; [discriminate|]. cbn [only_cancels forallb andb] in H.
    rewrite DownloaderFacts.run_cons.
    destruct (IH (Downloader.step base fresh content_length chunks rename_ok Cancel c) H) as [s Hs].
    exists s. rewrite Hs. reflexivity.
Qed.

(** From the end of the chunk loop, the worker's next two steps finish the
    item, whatever [cancel()] calls come in between. *)
Lemma finish_from_empty_loop c fname cs1 cs2 :
  cpc c = WLoop fname [] -> only_cancels cs1 = true -> only_cancels cs2 = true ->
  let c' := run (cs1 ++ Work :: cs2 ++ [Work]) c in
  cpc c' = WDone /\ current_state (citem c') = FINISHED /\ file (citem c') = fname /\
  (rename_ok (part fname) fname = true ->
   In fname (cfs c') /\ ~ In (part fname) (cfs c')).
Proof.
  intros Hp H1 H2 c'. unfold c'.
  rewrite DownloaderFacts.run_app.
  destruct (run_cancels cs1 c H1) as [s1 E1]. rewrite E1, Hp.
  rewrite DownloaderFacts.run_cons, DownloaderFacts.run_app.
  change (Downloader.step base fresh content_length chunks rename_ok Work
            (mkConfig (WLoop fname []) (set_state s1 (citem c)) (cfs c)))
    with (mkConfig (WPost fname false) (set_state s1 (citem c)) (cfs c)).
  destruct (run_cancels cs2 (mkConfig (WPost fname false) (set_state s1 (citem c)) (cfs c)) H2)
    as [s2 E2].
  rewrite E2. cbn [cpc citem cfs].
  rewrite DownloaderFacts.run_cons. cbn [Downloader.run fold_left step].
  unfold Downloader.work. cbn [cpc citem cfs].
  destruct (rename_ok (part fname) fname) eqn:Er; cbn [cpc citem cfs current_state file set_state set_file].
  - split; [reflexivity|]. split; [reflexivity|]. split; [reflexivity|].
    intros _. split.
    + left; reflexivity.
    + intros [H|H].
      * apply (part_neq fname). symmetry. exact H.
      * unfold Downloader.remove_file at 1 in H. apply filter_In in H as [H _].
        exact (DownloaderFacts.not_in_remove_file _ _ H).
  - rewrite rename_file_name. split; [reflexivity|]. split; [reflexivity|].
    split; [reflexivity|]. discriminate.
Qed.

End Worker.

Lemma run_chunks base fresh cl chunks rn fname ds it fs :
  current_state it = DOWNLOADING ->
  exists it', Downloader.run base fresh cl chunks rn (repeat Work (length ds)) (mkConfig (WLoop fname ds) it fs)
    = mkConfig (WLoop fname []) it' fs /\ current_state it' = DOWNLOADING /\
    current_size it' = current_size it + list_sum ds /\ total_size it' = total_size it /\
    file it' = file it.
Proof.
  revert it. induction ds as [|d ds IH]; intros it Hs.
  - exists it. simpl. rewrite Nat.add_0_r. repeat split; auto.
  - cbn [repeat length]. rewrite DownloaderFacts.run_cons. cbn [step work cpc citem cfs].
    rewrite Hs. cbn [dl_state_eqb].
    destruct (Nat.eqb d 0) eqn:Ed.
    + apply Nat.eqb_eq in Ed; subst d.
      destruct (IH it Hs) as (it' & H1 & H2 & H3 & H4 & H5).
      exists it'. rewrite H1. repeat split; auto; rewrite H3; simpl; lia.
    + destruct (IH (add_size d it) Hs) as (it' & H1 & H2 & H3 & H4 & H5).
      exists it'. rewrite H1. repeat split; auto; rewrite H3; simpl; lia.
Qed.

End WorkerFacts.

(** C1, as stated, fails: the per-chunk check runs before each chunk is
    handled, so a [cancel()] that lands while the last chunk is being
    written (the worker is still inside [for data in iter_content(...)])
    is never seen: the part file is renamed, [item.file] is set and the
    state is overwritten with [FINISHED]. *)
Lemma single_url_cancel_in_last_chunk_finishes :
  Downloader.cpc (sample_run [Downloader.Work; Downloader.Work])
    = Downloader.WLoop "dl/foo.zip" [] /\
  Downloader.current_state
    (Downloader.citem (sample_run [Downloader.Work; Downloader.Work;
                                   Downloader.Cancel]))
    = Downloader.CANCELLED /\
  Downloader.current_state
    (Downloader.citem (sample_run [Downloader.Work; Downloader.Work;
       Downloader.Cancel; Downloader.Work; Downloader.Work]))
    = Downloader.FINISHED /\
  Downloader.file
    (Downloader.citem (sample_run [Downloader.Work; Downloader.Work;
       Downloader.Cancel; Downloader.Work; Downloader.Work]))
    = "dl/foo.zip".
Proof. vm_compute. repeat split. Qed.

(** C1 (amended): for every single-URL item and every interleaving of the
    worker with [cancel()] calls, once the chunk loop's check finds the item
    [CANCELLED], the worker breaks out, removes [<name>.part] when it
    finishes, never sets [FINISHED] (the state stays [CANCELLED]) and never
    writes [item.file]. A [cancel()] that comes after the last per-chunk
    check (the loop has no chunk left, or the response has no chunks at
    all) is not seen: with any [cancel()] calls in between, the worker's
    next steps mark the item [FINISHED] and record its final path in
    [item.file] (and, when the direct rename succeeds, the file exists and
    [<name>.part] does not). *)
Theorem single_url_cancel_seen_removes_part
  (base fresh : string) (content_length : nat) (chunks : list nat)
  (rename_ok : string -> string -> bool)
  (it : Downloader.item) (fs : list string) :
  (forall (es1 es2 : list Downloader.event) (fname : string) (x : nat) (xs : list nat),
   Downloader.cpc (Downloader.run base fresh content_length chunks rename_ok es1
                     (Downloader.queued it fs))
     = Downloader.WLoop fname (x :: xs) ->
   Downloader.current_state (Downloader.citem
     (Downloader.run base fresh content_length chunks rename_ok es1
        (Downloader.queued it fs))) = Downloader.CANCELLED ->
   let c' := Downloader.run base fresh content_length chunks rename_ok
               (es1 ++ Downloader.Work :: es2) (Downloader.queued it fs) in
   Downloader.current_state (Downloader.citem c') = Downloader.CANCELLED /\
   Downloader.file (Downloader.citem c') = Downloader.file it /\
   (Downloader.cpc c' = Downloader.WDone ->
    ~ In (Downloader.part fname) (Downloader.cfs c'))) /\
  (forall (es1 cs1 cs2 : list Downloader.event) (fname : string),
   Downloader.cpc (Downloader.run base fresh content_length chunks rename_ok es1
                     (Downloader.queued it fs))
     = Downloader.WLoop fname [] ->
   Aux.only_cancels cs1 = true -> Aux.only_cancels cs2 = true ->
   let c' := Downloader.run base fresh content_length chunks rename_ok
               (es1 ++ cs1 ++ Downloader.Work :: cs2 ++ [Downloader.Work])
               (Downloader.queued it fs) in
   Downloader.cpc c' = Downloader.WDone /\
   Downloader.current_state (Downloader.citem c') = Downloader.FINISHED /\
   Downloader.file (Downloader.citem c') = fname /\
   (rename_ok (Downloader.part fname) fname = true ->
    In fname (Downloader.cfs c') /\ ~ In (Downloader.part fname) (Downloader.cfs c'))) /\
  (chunks = [] ->
   forall cs0 cs1 cs2 : list Downloader.event,
   Aux.only_cancels cs0 = true -> Aux.only_cancels cs1 = true ->
   Aux.only_cancels cs2 = true ->
   let c' := Downloader.run base fresh content_length chunks rename_ok
               (cs0 ++ Downloader.Work :: cs1 ++ Downloader.Work :: cs2 ++ [Downloader.Work])
               (Downloader.queued it fs) in
   Downloader.cpc c' = Downloader.WDone /\
   Downloader.current_state (Downloader.citem c') = Downloader.FINISHED /\
   Downloader.file (Downloader.citem c') = Downloader.get_filename base fresh it).
Proof.
  split; [|split].
  - intros es1 es2 fname x xs Hloop Hcancel c'. unfold c'.
    rewrite DownloaderFacts.run_app, DownloaderFacts.run_cons.
    set (c := Downloader.run base fresh content_length chunks rename_ok es1
                (Downloader.queued it fs)) in *.
    cbn [Downloader.step].
    destruct (DownloaderFacts.cancel_observed_sticks base fresh content_length
                chunks rename_ok c fname x xs Hloop Hcancel es2)
      as [Hs [Hf Hp]].
    repeat split; [exact Hs| |exact Hp].
    rewrite Hf. unfold c.
    apply DownloaderFacts2.file_unwritten_until_done.
    fold c. rewrite Hloop. discriminate.
  - intros es1 cs1 cs2 fname Hloop H1 H2 c'. unfold c'.
    rewrite DownloaderFacts.run_app.
    exact (WorkerFacts.finish_from_empty_loop base fresh content_length chunks rename_ok
             _ fname cs1 cs2 Hloop H1 H2).
  - intros Hc cs0 cs1 cs2 H0 H1 H2 c'. unfold c'.
    rewrite DownloaderFacts.run_app.
    destruct (WorkerFacts.run_cancels base fresh content_length chunks rename_ok
                cs0 (Downloader.queued it fs) H0) as [s E0].
    rewrite E0, DownloaderFacts.run_cons.
    destruct (WorkerFacts.finish_from_empty_loop base fresh content_length chunks rename_ok
               (Downloader.step base fresh content_length chunks rename_ok Downloader.Work
                  (Downloader.mkConfig (Downloader.cpc (Downloader.queued it fs))
                     (Downloader.set_state s (Downloader.citem (Downloader.queued it fs)))
                     (Downloader.cfs (Downloader.queued it fs))))
               (Downloader.get_filename base fresh it) cs1 cs2)
      as (Hp & Hs & Hf & _); [rewrite Hc; reflexivity|exact H1|exact H2|].
    repeat split; assumption.
Qed.

Lemma single_url_cancel_seen_removes_part_witness :
  (Downloader.cpc (sample_run [Downloader.Work; Downloader.Cancel])
     = Downloader.WLoop "dl/foo.zip" [1024] /\
   Downloader.current_state
     (Downloader.citem (sample_run [Downloader.Work; Downloader.Cancel]))
     = Downloader.CANCELLED /\
   Downloader.current_state (Downloader.citem
     (sample_run [Downloader.Work; Downloader.Cancel; Downloader.Work;
                  Downloader.Work])) = Downloader.CANCELLED) /\
  (Downloader.cpc (sample_run [Downloader.Work; Downloader.Work])
     = Downloader.WLoop "dl/foo.zip" [] /\
   Downloader.current_state (Downloader.citem
     (sample_run ([Downloader.Work; Downloader.Work] ++ [Downloader.Cancel] ++
                  Downloader.Work :: [] ++ [Downloader.Work])))
     = Downloader.FINISHED) /\
  Downloader.file (Downloader.citem
    (Downloader.run "dl" "u" 0 [] (fun _ _ => true)
       ([Downloader.Cancel] ++ Downloader.Work :: [Downloader.Cancel] ++
        Downloader.Work :: [] ++ [Downloader.Work])
       (Downloader.queued sample_item []))) = "dl/foo.zip".
Proof.
  split; [split; [reflexivity|split; [reflexivity|]]|split].
  - exact (proj1 (proj1 (single_url_cancel_seen_removes_part "dl" "u" 1024 [1024]
      (fun _ _ => true) sample_item []) [Downloader.Work; Downloader.Cancel]
      [Downloader.Work] "dl/foo.zip" 1024 [] eq_refl eq_refl)).
  - split; [reflexivity|].
    exact (proj1 (proj2 (proj1 (proj2 (single_url_cancel_seen_removes_part "dl" "u" 1024 [1024]
      (fun _ _ => true) sample_item []))
      [Downloader.Work; Downloader.Work] [Downloader.Cancel] [] "dl/foo.zip"
      eq_refl eq_refl eq_refl))).
  - exact (proj2 (proj2 (proj2 (proj2 (single_url_cancel_seen_removes_part "dl" "u" 0 []
      (fun _ _ => true) sample_item [])) eq_refl
      [Downloader.Cancel] [Downloader.Cancel] [] eq_refl eq_refl eq_refl))).
Defined.


(** C4 (code bug): [_rename_file] never returns the part-file name. Its
    counter leaves the [while n < max_loop] loop at most at [max_loop], so
    the fallback [if n > max_loop: file_name = file_name_part] never fires:
    whatever the renames do, the name recorded on the item is the final
    name. On [dl/foo.zip] with every rename failing it makes the 100
    attempts, renaming the directory [dl] to [(0)foo.zip] ... [(99)foo.zip],
    and still returns [dl/foo.zip]. *)
Theorem rename_file_never_reverts_to_part :
  (forall (rename_ok : string -> string -> bool) (filename filename_part : string),
     fst (Downloader.rename_file rename_ok filename filename_part 100) = filename) /\
  (let r := Downloader.rename_file (fun _ _ => false) "dl/foo.zip"
              "dl/foo.zip.part" 100 in
   fst r = "dl/foo.zip" /\ length (snd r) = 100 /\
   nth 0 (snd r) ("", "") = ("dl", "(0)foo.zip") /\
   nth 99 (snd r) ("", "") = ("dl", "(99)foo.zip")).
Proof.
  split.
  - intros rn f fp. unfold Downloader.rename_file.
    pose proof (RenameFacts.rename_loop_bound rn f fp 100 100 0 ltac:(lia)) as H.
    destruct (Downloader.rename_loop rn f fp 100 100 0) as [n tries].
    simpl in H |- *. destruct (Nat.ltb 100 n) eqn:E; [|reflexivity].
    apply Nat.ltb_lt in E. lia.
  - vm_compute. repeat split.
Qed.

(** C5, as stated, fails: [cancel()] sets [CANCELLED] whatever the state,
    and the worker sets [DOWNLOADING] on every item it takes from the
    queue, so an item cancelled while queued goes back to [DOWNLOADING],
    is downloaded, and ends [FINISHED]. *)
Lemma cancelled_in_queue_set_downloading :
  Downloader.current_state
    (Downloader.citem (sample_run [Downloader.Cancel])) = Downloader.CANCELLED /\
  Downloader.current_state
    (Downloader.citem (sample_run [Downloader.Cancel; Downloader.Work]))
    = Downloader.DOWNLOADING /\
  Downloader.current_state
    (Downloader.citem (sample_run [Downloader.Cancel; Downloader.Work;
       Downloader.Work; Downloader.Work; Downloader.Work]))
    = Downloader.FINISHED.
Proof. vm_compute. repeat split. Qed.

(** C5 (amended): without [cancel()] calls, the worker moves a queued item
    only forward, [IN_QUEUE -> DOWNLOADING -> FINISHED], step by step; and
    once a per-chunk check has found the item [CANCELLED], it stays
    [CANCELLED] whatever happens next. [cancel()] sets [CANCELLED] from any
    state and leaves the worker where it is; the worker does not look at
    the state when it takes the item from the queue, so an item cancelled
    while [IN_QUEUE] is set to [DOWNLOADING] and, without further
    [cancel()] calls, downloaded to [FINISHED]. *)
Theorem downloader_state_forward_without_cancel
  (base fresh : string) (content_length : nat) (chunks : list nat)
  (rename_ok : string -> string -> bool)
  (it : Downloader.item) (fs : list string)
  (Hq : Downloader.current_state it = Downloader.IN_QUEUE) :
  (forall es e,
     ~ In Downloader.Cancel (es ++ [e]) ->
     Downloader.rank (Downloader.current_state (Downloader.citem
       (Downloader.run base fresh content_length chunks rename_ok es
          (Downloader.queued it fs)))) <=
     Downloader.rank (Downloader.current_state (Downloader.citem
       (Downloader.run base fresh content_length chunks rename_ok (es ++ [e])
          (Downloader.queued it fs))))) /\
  (forall c fname x xs es,
     Downloader.cpc c = Downloader.WLoop fname (x :: xs) ->
     Downloader.current_state (Downloader.citem c) = Downloader.CANCELLED ->
     Downloader.current_state (Downloader.citem
       (Downloader.run base fresh content_length chunks rename_ok
          (Downloader.Work :: es) c)) = Downloader.CANCELLED) /\
  (forall c,
     let c' := Downloader.step base fresh content_length chunks rename_ok
                 Downloader.Cancel c in
     Downloader.current_state (Downloader.citem c') = Downloader.CANCELLED /\
     Downloader.cpc c' = Downloader.cpc c) /\
  (let run := Downloader.run base fresh content_length chunks rename_ok in
   Downloader.current_state (Downloader.citem
     (run [Downloader.Cancel] (Downloader.queued it fs))) = Downloader.CANCELLED /\
   Downloader.current_state (Downloader.citem
     (run [Downloader.Cancel; Downloader.Work] (Downloader.queued it fs)))
     = Downloader.DOWNLOADING /\
   Downloader.current_state (Downloader.citem
     (run (Downloader.Cancel :: repeat Downloader.Work (length chunks + 3))
        (Downloader.queued it fs))) = Downloader.FINISHED).
Proof.
  split; [|split; [|split]].
  - intros es e Hnc.
    assert (Hinv : forall es', ~ In Downloader.Cancel es' ->
      forall c, Aux.no_cancel_inv c ->
      Aux.no_cancel_inv
        (Downloader.run base fresh content_length chunks rename_ok es' c)).
    { induction es' as [|e' es' IH]; intros Hn c Hc; [exact Hc|].
      rewrite DownloaderFacts.run_cons. apply IH.
      - intros H; apply Hn; right; exact H.
      - destruct e'; [|exfalso; apply Hn; left; reflexivity].
        apply (DownloaderFacts.work_no_cancel_inv base fresh content_length
                 chunks rename_ok c Hc). }
    rewrite DownloaderFacts.run_app.
    set (c := Downloader.run base fresh content_length chunks rename_ok es
                (Downloader.queued it fs)).
    assert (Hc : Aux.no_cancel_inv c).
    { apply Hinv.
      - intros H; apply Hnc, in_or_app; left; exact H.
      - left; split; [reflexivity|exact Hq]. }
    destruct e; [|exfalso; apply Hnc, in_or_app; right; left; reflexivity].
    exact (proj2 (DownloaderFacts.work_no_cancel_inv base fresh content_length
                    chunks rename_ok c Hc)).
  - intros c fname x xs es Hp Hs.
    rewrite DownloaderFacts.run_cons. cbn [Downloader.step].
    exact (proj1 (DownloaderFacts.cancel_observed_sticks base fresh
                    content_length chunks rename_ok c fname x xs Hp Hs es)).
  - intros c c'. split; reflexivity.
  - intros run. split; [reflexivity|split; [reflexivity|]].
    unfold run. replace (length chunks + 3) with (S (length chunks + 2)) by lia.
    cbn [repeat]. rewrite !DownloaderFacts.run_cons.
    rewrite repeat_app, DownloaderFacts.run_app.
    set (fname := Downloader.get_filename base fresh
                    (Downloader.cancel it)).
    destruct (WorkerFacts.run_chunks base fresh content_length chunks rename_ok fname chunks
       (Downloader.set_total content_length
          (Downloader.set_state Downloader.DOWNLOADING (Downloader.cancel it)))
       (Downloader.part fname :: Downloader.remove_file (Downloader.part fname) fs) eq_refl)
      as (it' & H1 & _).
    change (Downloader.step base fresh content_length chunks rename_ok Downloader.Work
              (Downloader.step base fresh content_length chunks rename_ok Downloader.Cancel
                 (Downloader.queued it fs)))
      with (Downloader.mkConfig (Downloader.WLoop fname chunks)
              (Downloader.set_total content_length
                 (Downloader.set_state Downloader.DOWNLOADING (Downloader.cancel it)))
              (Downloader.part fname :: Downloader.remove_file (Downloader.part fname) fs)).
    rewrite H1.
    exact (proj1 (proj2 (WorkerFacts.finish_from_empty_loop base fresh content_length
             chunks rename_ok (Downloader.mkConfig (Downloader.WLoop fname []) it'
               (Downloader.part fname :: Downloader.remove_file (Downloader.part fname) fs))
             fname [] [] eq_refl eq_refl eq_refl))).
Qed.

Lemma downloader_state_forward_without_cancel_witness :
  Downloader.current_state sample_item = Downloader.IN_QUEUE /\
  Downloader.rank (Downloader.current_state (Downloader.citem
    (sample_run [Downloader.Work; Downloader.Work]))) <=
  Downloader.rank (Downloader.current_state (Downloader.citem
    (sample_run ([Downloader.Work; Downloader.Work] ++ [Downloader.Work])))).
Proof.
  split; [reflexivity|].
  apply (proj1 (downloader_state_forward_without_cancel "dl" "u" 1024 [1024]
    (fun _ _ => true) sample_item [] eq_refl)).
  simpl. intros [H|[H|[H|H]]]; try discriminate; exact H.
Defined.

Module BackupFacts.
Import Backup.

Lemma try_names_spec os_join os_exists bd date name fuel n :
  let cand k := os_join bd (backup_name date name k) in
  (exists k, n <= k < n + fuel /\
     snd (try_names os_join os_exists bd date name fuel n) = Some (cand k) /\
     os_exists (cand k) = false /\
     forall j, n <= j < k -> os_exists (cand j) = true) \/
  (snd (try_names os_join os_exists bd date name fuel n) = None /\
   forall j, n <= j < n + fuel -> os_exists (cand j) = true).
Proof.
  intros cand. revert n; induction fuel as [|fuel IH]; intros n.
  - right. split; [reflexivity|]. intros j Hj; lia.
  - cbn [try_names]. fold (cand n).
    destruct (os_exists (cand n)) eqn:E.
    + destruct (IH (S n)) as [(k & Hk & Hr & Hf & Hj)|(Hr & Hj)];
        destruct (try_names os_join os_exists bd date name fuel (S n)) as [cs r];
        simpl in Hr |- *.
      * left. exists k. repeat split; try lia; [exact Hr|exact Hf|].
        intros j Hj'. destruct (Nat.eq_dec j n) as [->|Hne]; [exact E|apply Hj; lia].
      * right. split; [exact Hr|].
        intros j Hj'. destruct (Nat.eq_dec j n) as [->|Hne]; [exact E|apply Hj; lia].
    + left. exists n. split; [lia|]. split; [simpl; reflexivity|]. split; [exact E|]. intros j Hj; lia.
Qed.

Lemma fs_exists_in fs p : fs_exists fs p = true <-> In p fs.
Proof.
  unfold fs_exists. rewrite existsb_exists. split.
  - intros [y [Hy E]]. apply String.eqb_eq in E; subst; exact Hy.
  - intros H. exists p; split; [exact H|apply String.eqb_refl].
Qed.

End BackupFacts.

(** C7 (amended): [backup_database] tries [<date>-<name>] and then
    [<date>(1)-<date>-<name>], [<date>(2)-<date>-<name>], ..., 50 names in
    all, in the backup directory; it copies the database to the first of
    them that does not exist, so no existing file is overwritten; when all
    50 exist it copies nothing; and it returns true in every case. *)
Theorem backup_database_first_unused_of_fifty (today db_path : string) (fs : list string) :
  let r := Backup.backup_database Path.split Path.join (Backup.fs_exists fs)
             (Backup.fs_exists fs) today db_path in
  let bd := Path.join (fst (Path.split db_path)) "backup" in
  let cand n := Path.join bd (Backup.backup_name (Backup.before_space today)
                                (snd (Path.split db_path)) n) in
  snd r = true /\
  ((exists n, n < Backup.MAX_TRIES /\ snd (fst r) = [(db_path, cand n)] /\
     ~ In (cand n) fs /\ forall j, j < n -> In (cand j) fs) \/
   (snd (fst r) = [] /\ forall n, n < Backup.MAX_TRIES -> In (cand n) fs)).
Proof.
  intros r bd cand. subst r bd cand. unfold Backup.backup_database.
  destruct (Path.split db_path) as [base name]. cbn [fst snd].
  destruct (BackupFacts.try_names_spec Path.join (Backup.fs_exists fs)
              (Path.join base "backup") (Backup.before_space today) name
              Backup.MAX_TRIES 0)
    as [(k & Hk & Hr & Hf & Hj)|(Hr & Hj)];
    destruct (Backup.try_names Path.join (Backup.fs_exists fs)
                (Path.join base "backup") (Backup.before_space today) name
                Backup.MAX_TRIES 0) as [cs d];
    cbn [snd fst] in Hr |- *; subst d; (split; [reflexivity|]).
  - left. exists k. repeat split; [lia| |].
    + intros Hin. apply BackupFacts.fs_exists_in in Hin. congruence.
    + intros j Hj'. apply BackupFacts.fs_exists_in, Hj. lia.
  - right. split; [reflexivity|]. intros n Hn. apply BackupFacts.fs_exists_in, Hj. lia.
Qed.

(** C7, as stated, fails. The model reproduces the four runs of
    [test_run_backup_database]: the [os] call counts 103, 104, 5 and 6,
    the [join] with ["2016-10-25(1)-2016-10-25-<name>"] and
    ["2016-10-25(2)-2016-10-25-<name>"], and no copy when every name
    exists. So after a clash the copy goes to [<date>(1)-<date>-<name>],
    not to the spec's [(1)-<date>-<name>], and the search is not
    unbounded: with the 50 names present nothing is copied, although
    [<date>(50)-<date>-<name>] is free. *)
Lemma backup_database_test_names :
  (* the four runs of test_run_backup_database, [os.path.join] returning
     the same mock [J] every time *)
  (forall ex isdir : bool,
     let r := Backup.backup_database (fun _ => ("B", "mydb.db")) (fun _ _ => "J")
                (fun _ => isdir) (fun _ => ex) "2016-10-25 15:42:47.649416" "D" in
     length (fst (fst r)) =
       (if ex then if isdir then 103 else 104 else if isdir then 5 else 6) /\
     snd (fst r) = (if ex then [] else [("D", "J")]) /\ snd r = true /\
     In (Backup.OsJoin "J" "2016-10-25-mydb.db") (fst (fst r)) /\
     (ex = true ->
      In (Backup.OsJoin "J" "2016-10-25(1)-2016-10-25-mydb.db") (fst (fst r)) /\
      In (Backup.OsJoin "J" "2016-10-25(2)-2016-10-25-mydb.db") (fst (fst r)))) /\
  (* with [2016-10-25-mydb.db] present, the copy goes to
     [2016-10-25(1)-2016-10-25-mydb.db], not to the spec's
     [(1)-2016-10-25-mydb.db] *)
  (let fs := ["/data/backup"; "/data/backup/2016-10-25-mydb.db"] in
   snd (fst (Backup.backup_database Path.split Path.join (Backup.fs_exists fs)
               (Backup.fs_exists fs) "2016-10-25 15:42:47" "/data/mydb.db"))
   = [("/data/mydb.db", "/data/backup/2016-10-25(1)-2016-10-25-mydb.db")] /\
   Backup.spec_candidate "/data/backup" "2016-10-25" "mydb.db" 1
   = "/data/backup/(1)-2016-10-25-mydb.db") /\
  (* with the 50 names present, nothing is copied, although
     [2016-10-25(50)-2016-10-25-mydb.db] is free *)
  (let fs := map (fun n => Path.join "/data/backup"
                     (Backup.backup_name "2016-10-25" "mydb.db" n)) (seq 0 50) in
   snd (fst (Backup.backup_database Path.split Path.join (Backup.fs_exists fs)
               (Backup.fs_exists fs) "2016-10-25 15:42:47" "/data/mydb.db")) = [] /\
   ~ In "/data/backup/2016-10-25(50)-2016-10-25-mydb.db" fs).
Proof.
  split; [|split].
  - intros ex isdir; destruct ex, isdir; vm_compute;
      repeat match goal with
      | H : false = true |- _ => discriminate H
      | |- _ /\ _ => split
      | |- _ -> _ => intros ?H
      | |- ?a = ?a => reflexivity
      | |- _ \/ _ => first [left; reflexivity | right]
      end.
  - split; vm_compute; reflexivity.
  - split; [vm_compute; reflexivity|].
    intros H. vm_compute in H. repeat (destruct H as [H|H]; [discriminate H|]). exact H.
Qed.

(** C6 (code bug): [_connectHooks] does not skip an unresolvable pending
    connection, it returns: once a connection's plugin id or hook name is
    not found, none of the connections after it is attached. With hooks
    [{pid: {hook: {}}}] and the connections
    [(A, missing, hook, 1)], [(B, pid, hook, 2)], handler 2 is never added
    although its target exists. *)
Theorem connect_hooks_stops_at_unresolved :
  (forall (hs : Plugins.hooks) (c : Plugins.connection)
          (rest : list Plugins.connection),
     Plugins.resolvable hs c = false ->
     Plugins.connect_hooks hs (c :: rest) = hs) /\
  (let hs : Plugins.hooks := [("pid", [("hook", [])])] in
   let c1 := Plugins.mkConn "A" "missing" "hook" 1 in
   let c2 := Plugins.mkConn "B" "pid" "hook" 2 in
   Plugins.resolvable hs c2 = true /\
   Plugins.handlers_of (Plugins.connect_hooks hs [c1; c2]) "pid" "hook" = []).
Proof.
  split.
  - intros hs c rest. unfold Plugins.resolvable. simpl.
    destruct (Py.get (Plugins.pluginid c) hs) as [p|]; [|reflexivity].
    destruct (Py.get (Plugins.h_name c) p); [discriminate|reflexivity].
  - split; reflexivity.
Qed.

(** C8 (code bug): when at least one gallery failed, [auto_web_metadata]
    clears the lock and emits the message with the count, but its logging
    loop evaluates ["...".e], an attribute strings do not have: the
    AttributeError ends the run before [FINISHED.emit(False)]. *)
Theorem auto_web_metadata_partial_failure_raises :
  forall (e : string) (rest : list string),
    Fetch.finish_run (e :: rest) =
      (false,
       [Fetch.AUTO_METADATA_PROGRESS
          ("Could not add " ++ Py.str_nat (S (length rest)) ++
           " galleries to queue. Check happypanda.log for more details!")%string],
       Fetch.Exception "AttributeError") /\
    ~ In (Fetch.FINISHED false) (snd (fst (Fetch.finish_run (e :: rest)))).
Proof.
  intros e rest. split; [reflexivity|].
  simpl. intros [H|[]]. discriminate.
Qed.

(** C9: on a non-empty queue, [process_queue] passes the first 25 entries
    (all of them if fewer) to [get_metadata] and leaves the shared queue
    empty whatever [get_metadata] does (returns, returns [None] or
    ['error'], or raises); on an empty queue it makes no call and returns
    [None]. *)
Theorem process_queue_first_25_then_clears :
  (forall (get_metadata : list string -> CommenHen.gm_result),
     CommenHen.process_queue get_metadata [] =
       (CommenHen.Returns None, [], None)) /\
  (forall (get_metadata : list string -> CommenHen.gm_result)
          (x : string) (q : list string),
     let '(_, q', arg) := CommenHen.process_queue get_metadata (x :: q) in
     q' = [] /\ arg = Some (firstn 25 (x :: q)) /\
     length (firstn 25 (x :: q)) <= 25 /\
     (forall y, In y (firstn 25 (x :: q)) -> In y (x :: q))).
Proof.
  split; [reflexivity|].
  intros gm x q. unfold CommenHen.process_queue.
  simpl (Nat.ltb (length (x :: q)) 1). cbv iota zeta.
  repeat split.
  - destruct (Nat.leb CommenHen.QUEUE_LIMIT (length (x :: q))) eqn:E;
      [reflexivity|].
    apply Nat.leb_gt in E. rewrite firstn_all2; [reflexivity|].
    unfold CommenHen.QUEUE_LIMIT in E. lia.
  - rewrite length_firstn. lia.
  - intros y Hy. rewrite <- (firstn_skipn 25 (x :: q)).
    apply in_or_app; left; exact Hy.
Qed.

(** C10 (code bug): the record [update_metadata] creates on an empty item
    has the key ["Posted"], not ["posted"] (the key the EH API,
    [parse_metadata] and the Chaika manager use): after the first call, the
    record has no ["posted"] field unless that call wrote it. *)
Theorem update_metadata_skeleton_posted_key :
  forall (key : string) (value : HenItem.pyval),
    HenItem.update_metadata [] key value =
      Some [("gmetadata", HenItem.PList [HenItem.PDict
                              (HenItem.dset key value HenItem.skeleton)])] /\
    HenItem.dget "posted" (HenItem.dset key value HenItem.skeleton) =
      (if String.eqb "posted" key then Some value else None) /\
    HenItem.dget "Posted" HenItem.skeleton = Some (HenItem.PStr "").
Proof.
  intros key value. repeat split.
  unfold HenItem.skeleton.
  cbn [HenItem.dset].
  repeat match goal with
  | |- context [String.eqb key ?k] =>
      destruct (String.eqb key k) eqn:?
  end;
  cbn [HenItem.dget];
  repeat match goal with
  | H : String.eqb key ?k = true |- _ =>
      apply String.eqb_eq in H; subst key
  end;
  try reflexivity;
  destruct (String.eqb "posted" key) eqn:Ep; try reflexivity;
  apply String.eqb_eq in Ep; subst key; discriminate.
Qed.

Lemma apply_metadata_merge_or_replace_tags_witness :
  ApplyMeta.canonical sample_record = true /\
  exists g', ApplyMeta.apply_metadata false (fun t => (t, "", ""))
               sample_gallery sample_record true = Some g' /\
             ApplyMeta.g_tags g' = [("Artist", ["a"; "b"])].
Proof.
  split; [reflexivity|].
  exact (proj1 (proj2 (proj2 (apply_metadata_merge_or_replace_tags false
    (fun t => (t, "", "")) sample_gallery sample_record eq_refl))
    eq_refl eq_refl)).
Defined.

(* ------------------------------------------------------------------ *)
(** ** Helper lemmas: EHen, CommenHen queue and cookies, file names *)

Module StrFacts.

Lemma list_ascii_app a b :
  list_ascii_of_string (a ++ b) = list_ascii_of_string a ++ list_ascii_of_string b.
Proof. induction a as [|c a IH]; simpl; [reflexivity|rewrite IH; reflexivity]. Qed.

Lemma string_app_assoc a b c : ((a ++ b) ++ c)%string = (a ++ (b ++ c))%string.
Proof. induction a as [|x a IH]; simpl; [reflexivity|rewrite IH; reflexivity]. Qed.

Lemma string_app_nil a : (a ++ "")%string = a.
Proof. induction a as [|x a IH]; simpl; [reflexivity|rewrite IH; reflexivity]. Qed.
End StrFacts.


Module QFacts.
Import Py CommenHen CommenHenQ.

Lemma process_queue_empties gm q : snd (fst (process_queue gm q)) = [].
Proof.
  unfold process_queue. destruct (Nat.ltb (length q) 1) eqn:E; [|reflexivity].
  apply Nat.ltb_lt in E. destruct q; simpl in *; [reflexivity|lia].
Qed.

Lemma process_queue_result R gm pm pmc par q :
  snd (fst (@process R gm pm pmc par q)) = snd (fst (process_queue gm q)) /\
  snd (@process R gm pm pmc par q) = snd (process_queue gm q).
Proof. unfold process. destruct (process_queue gm q) as [[o q'] arg]. split; reflexivity. Qed.

End QFacts.


Module UrlFacts.
Import Py PyStr EHen Aux.

Lemma span_app p a b :
  all_chars p a -> starts_not p b -> span p (a ++ b) = (a, b).
Proof.
  induction a as [|c a IH]; intros Ha Hb; simpl.
  - destruct b as [|c b]; simpl in *; [reflexivity|rewrite Hb; reflexivity].
  - rewrite (Ha c (or_introl eq_refl)).
    rewrite IH; [reflexivity| |exact Hb].
    intros x Hx; apply Ha; right; exact Hx.
Qed.

Lemma uint_digits d : all_chars is_digit (uint_to_string d).
Proof.
  induction d; intros c Hc; simpl in Hc; try contradiction;
    destruct Hc as [<-|Hc]; auto.
Qed.

Lemma str_nat_nonempty n : str_nat n <> "".
Proof.
  unfold str_nat. intros H.
  destruct (Nat.to_uint n) eqn:E; try discriminate.
  pose proof (DecimalNat.Unsigned.of_to n) as Hn. rewrite E in Hn.
  simpl in Hn. subst n. discriminate.
Qed.

Lemma dec_value_acc d acc :
  fold_left (fun acc c => acc * 10 + (nat_of_ascii c - 48))
    (list_ascii_of_string (uint_to_string d)) acc = Nat.of_uint_acc d acc.
Proof.
  revert acc; induction d; intros acc; simpl; try reflexivity;
    rewrite IHd; f_equal; rewrite Nat.tail_mul_spec; lia.
Qed.

Lemma dec_value_str_nat n : dec_value (str_nat n) = n.
Proof.
  unfold dec_value, str_nat. rewrite dec_value_acc.
  exact (DecimalNat.Unsigned.of_to n).
Qed.

Lemma split_nosep sep s :
  contains_char sep s = false -> Py.split sep s = [s].
Proof.
  induction s as [|c s IH]; simpl; [reflexivity|].
  intros H. apply orb_false_iff in H as [H1 H2]. rewrite H1, IH by exact H2.
  reflexivity.
Qed.

Lemma split_one sep a b :
  contains_char sep a = false -> contains_char sep b = false ->
  Py.split sep (a ++ String sep b) = [a; b].
Proof.
  intros Ha Hb. induction a as [|c a IH]; simpl.
  - rewrite Ascii.eqb_refl, split_nosep by exact Hb. reflexivity.
  - simpl in Ha. apply orb_false_iff in Ha as [H1 H2]. rewrite H1, IH by exact H2.
    reflexivity.
Qed.

Lemma all_chars_no p c s : all_chars p s -> p c = false -> contains_char c s = false.
Proof.
  induction s as [|x s IH]; intros Hs Hc; simpl; [reflexivity|].
  apply orb_false_iff; split.
  - destruct (Ascii.eqb x c) eqn:E; [|reflexivity].
    apply Ascii.eqb_eq in E; subst x. rewrite (Hs c (or_introl eq_refl)) in Hc.
    discriminate.
  - apply IH; [intros y Hy; apply Hs; right; exact Hy|exact Hc].
Qed.

Lemma match_at_not_digit s : starts_not is_digit s -> match_at s = None.
Proof.
  intros H. unfold match_at. destruct s as [|c s]; [reflexivity|].
  simpl in H |- *. rewrite H. reflexivity.
Qed.

Lemma search_cons c rest :
  search (String c rest) =
  match (if Ascii.eqb c "g" then
           match rest with
           | String c2 r => if Ascii.eqb c2 "/" then match_at r else None
           | EmptyString => None end else None) with
  | Some m => Some m
  | None => search rest
  end.
Proof. reflexivity. Qed.

Lemma search_after_prefix prefix y m :
  (forall c, In c (list_ascii_of_string prefix) -> is_digit c = false) ->
  match_at y = Some m ->
  search (prefix ++ "g/" ++ y) = Some m.
Proof.
  intros Hp Hm. induction prefix as [|c p IH].
  - simpl. rewrite Hm. reflexivity.
  - change ((String c p ++ "g/" ++ y)%string) with (String c (p ++ "g/" ++ y)).
    rewrite search_cons.
    assert (Hhere : (if Ascii.eqb c "g" then
              match (p ++ "g/" ++ y)%string with
              | String c2 r => if Ascii.eqb c2 "/" then match_at r else None
              | EmptyString => None end else None) = None).
    { destruct (Ascii.eqb c "g"); [|reflexivity].
      destruct p as [|c2 p']; simpl; [reflexivity|].
      destruct (Ascii.eqb c2 "/"); [|reflexivity].
      apply match_at_not_digit.
      destruct p' as [|c3 p'']; simpl; [reflexivity|].
      apply Hp; simpl; auto. }
    rewrite Hhere. apply IH. intros x Hx; apply Hp; right; exact Hx.
Qed.

End UrlFacts.


Module GetMetaFacts.
Import Py PyStr EHen Aux.

Lemma collect_unparsable urls dm gl :
  (forall u, In u urls -> parse_url (strip u) = None) ->
  collect urls dm gl = (dm, gl).
Proof.
  revert dm gl; induction urls as [|u us IH]; intros dm gl H; [reflexivity|].
  simpl. rewrite (H u (or_introl eq_refl)). apply IH.
  intros v Hv; apply H; right; exact Hv.
Qed.

Lemma collect_nonempty urls dm gl u :
  In u urls -> parse_url (strip u) <> None -> snd (collect urls dm gl) <> [].
Proof.
  assert (Hkeep : forall urls dm gl, gl <> [] -> snd (collect urls dm gl) <> []).
  { induction urls0 as [|v vs IH]; intros dm0 gl0 Hg; simpl; [exact Hg|].
    destruct (parse_url (strip v)) as [[g t]|]; apply IH; [|exact Hg].
    destruct gl0; simpl; discriminate. }
  revert dm gl; induction urls as [|v vs IH]; intros dm gl Hin Hp; [destruct Hin|].
  destruct Hin as [Heq|Hin]; simpl; [subst v|].
  - destruct (parse_url (strip u)) as [[g t]|]; [|contradiction].
    apply Hkeep. destruct gl; simpl; discriminate.
  - destruct (parse_url (strip v)) as [[g t]|]; apply IH; assumption.
Qed.

Lemma nget_nset g g' u dm :
  nget g (nset g' u dm) = if Nat.eqb g g' then Some u else nget g dm.
Proof.
  induction dm as [|[k v] dm IH]; simpl.
  - destruct (Nat.eqb g g'); reflexivity.
  - destruct (Nat.eqb g' k) eqn:E1.
    + apply Nat.eqb_eq in E1; subst k. simpl. destruct (Nat.eqb g g'); reflexivity.
    + simpl. rewrite IH. destruct (Nat.eqb g g') eqn:E2; [|reflexivity].
      apply Nat.eqb_eq in E2; subst g. rewrite E1. reflexivity.
Qed.

Lemma find_app {A} (f : A -> bool) l1 l2 :
  find f (l1 ++ l2) = match find f l1 with Some x => Some x | None => find f l2 end.
Proof. induction l1 as [|x l1 IH]; simpl; [reflexivity|]. destruct (f x); auto. Qed.

Lemma collect_dict urls dm gl g :
  nget g (fst (collect urls dm gl)) =
  match find (hits g) (rev urls) with Some u => Some u | None => nget g dm end.
Proof.
  revert dm gl; induction urls as [|u us IH]; intros dm gl; [reflexivity|].
  simpl rev. rewrite find_app. cbn [collect].
  destruct (parse_url (strip u)) as [[g' t]|] eqn:Hp; rewrite IH;
    destruct (find (hits g) (rev us)) as [w|]; try reflexivity;
    simpl; unfold hits; rewrite Hp; [|reflexivity].
  rewrite nget_nset. destruct (Nat.eqb g g'); reflexivity.
Qed.

End GetMetaFacts.


Module CookieFacts.
Import Py PyFacts CommenHenQ.

Lemma get_update {V} (d u : dict V) k :
  ApplyMeta.keys_distinct (map fst u) = true ->
  get k (dict_update d u) = match get k u with Some v => Some v | None => get k d end.
Proof.
  revert d; induction u as [|[k0 v0] u IH]; intros d Hk; [reflexivity|].
  cbn [map fst ApplyMeta.keys_distinct] in Hk.
  apply andb_true_iff in Hk as [Hn Hk]. apply negb_true_iff in Hn.
  unfold dict_update in *. cbn [fold_left fst snd get].
  rewrite IH by exact Hk. rewrite get_set.
  destruct (String.eqb k k0) eqn:E.
  - apply String.eqb_eq in E; subst k0.
    rewrite (ApplyMetaFacts.get_absent k u Hn). reflexivity.
  - reflexivity.
Qed.

Lemma has_key_update {V} (d u : dict V) k :
  In k (map fst u) -> has_key k (dict_update d u) = true.
Proof.
  revert d; induction u as [|[k0 v0] u IH]; intros d Hin; [destruct Hin|].
  unfold dict_update in *. cbn [fold_left fst snd].
  destruct (in_dec string_dec k (map fst u)) as [Hu|Hu]; [apply IH; exact Hu|].
  destruct Hin as [Heq|Hin]; [simpl in Heq; subst k0|contradiction].
  assert (Hkeep : forall (u : dict V) (d : dict V), ~ In k (map fst u) -> has_key k d = true ->
                 has_key k (fold_left (fun acc kv => set (fst kv) (snd kv) acc) u d) = true).
  { induction u0 as [|[k1 v1] u0 IH0]; intros d0 Hn Hd; [exact Hd|].
    cbn [fold_left fst snd]. apply IH0.
    - intros H; apply Hn; right; exact H.
    - unfold has_key in *. rewrite get_set.
      destruct (String.eqb k k1); [reflexivity|exact Hd]. }
  apply Hkeep; [exact Hu|]. unfold has_key. rewrite get_set, String.eqb_refl. reflexivity.
Qed.
End CookieFacts.


Module WsFacts.
Import Py PyStr StrFacts Aux.

Lemma list_rev_str s : list_ascii_of_string (rev_str s) = rev (list_ascii_of_string s).
Proof. unfold rev_str. apply list_ascii_of_string_of_list_ascii. Qed.

Lemma rev_str_cons c s : rev_str (String c s) = (rev_str s ++ String c "")%string.
Proof.
  unfold rev_str. simpl.
  rewrite <- (string_of_list_ascii_of_string (string_of_list_ascii (rev (list_ascii_of_string s)) ++ String c "")).
  rewrite list_ascii_app, list_ascii_of_string_of_list_ascii. reflexivity.
Qed.

Lemma rev_str_involutive s : rev_str (rev_str s) = s.
Proof.
  unfold rev_str at 1. rewrite list_rev_str, rev_involutive.
  apply string_of_list_ascii_of_string.
Qed.

Lemma rev_str_nonempty s : s <> "" -> rev_str s <> "".
Proof.
  intros H E. apply H. rewrite <- (rev_str_involutive s), E. reflexivity.
Qed.

Lemma split_ws_aux_good s cur :
  (forall c, In c (list_ascii_of_string cur) -> is_space c = false) ->
  Forall good_word (split_ws_aux s cur).
Proof.
  assert (Hlast : forall cur, (forall c, In c (list_ascii_of_string cur) -> is_space c = false) ->
            Forall good_word (if String.eqb cur "" then [] else [rev_str cur])).
  { intros cur0 H. destruct (String.eqb cur0 "") eqn:E; [constructor|].
    constructor; [|constructor]. split.
    - apply rev_str_nonempty. intros ->. discriminate.
    - intros c Hc. rewrite list_rev_str in Hc. apply H, in_rev, Hc. }
  revert cur; induction s as [|c s IH]; intros cur H; simpl; [apply Hlast, H|].
  destruct (is_space c) eqn:Ec.
  - apply Forall_app; split; [apply Hlast, H|]. apply IH. intros x [].
  - apply IH. intros x [<-|Hx]; [exact Ec|apply H, Hx].
Qed.

Lemma split_ws_aux_word w s cur :
  (forall c, In c (list_ascii_of_string w) -> is_space c = false) ->
  split_ws_aux (w ++ s) cur = split_ws_aux s (rev_str w ++ cur).
Proof.
  revert cur; induction w as [|c w IH]; intros cur H; simpl; [reflexivity|].
  rewrite (H c (or_introl eq_refl)).
  rewrite IH by (intros x Hx; apply H; right; exact Hx).
  rewrite rev_str_cons, string_app_assoc. reflexivity.
Qed.

Lemma split_join ws : Forall good_word ws -> split_ws (join_sp ws) = ws.
Proof.
  induction ws as [|w ws IH]; intros Hg; [reflexivity|].
  inversion Hg as [|? ? [Hne Hw] Hg']; subst.
  unfold split_ws, join_sp. simpl String.concat.
  destruct ws as [|w2 ws'].
  - rewrite <- (string_app_nil w) at 1.
    rewrite split_ws_aux_word by exact Hw. simpl.
    rewrite string_app_nil.
    destruct (String.eqb (rev_str w) "") eqn:E.
    + apply String.eqb_eq in E. exfalso; exact (rev_str_nonempty w Hne E).
    + rewrite rev_str_involutive. reflexivity.
  - rewrite split_ws_aux_word by exact Hw. simpl.
    rewrite string_app_nil.
    destruct (String.eqb (rev_str w) "") eqn:E.
    + apply String.eqb_eq in E. exfalso; exact (rev_str_nonempty w Hne E).
    + rewrite rev_str_involutive. simpl. f_equal. apply IH, Hg'.
Qed.
End WsFacts.


Module FileNameFacts.
Import Py Downloader StrFacts.

Lemma strip_chars_valid s c :
  In c (list_ascii_of_string (strip_chars s)) -> existsb (Ascii.eqb c) invalid_chars = false.
Proof.
  induction s as [|x s IH]; cbn [strip_chars]; [intros []|].
  destruct (existsb (Ascii.eqb x) invalid_chars) eqn:E; [exact IH|].
  intros [<-|H]; [exact E|exact (IH H)].
Qed.

Lemma strip_chars_no_slash s : contains_char "/" (strip_chars s) = false.
Proof.
  induction s as [|x s IH]; cbn [strip_chars]; [reflexivity|].
  destruct (existsb (Ascii.eqb x) invalid_chars) eqn:E; [exact IH|].
  cbn [contains_char]. rewrite IH, orb_false_r.
  destruct (Ascii.eqb x "/") eqn:Ex; [|reflexivity].
  apply Ascii.eqb_eq in Ex; subst x. discriminate.
Qed.

Lemma join_plain a b :
  (forall r, b <> String "/" r) ->
  Path.join a b = (if String.eqb a "" || Path.ends_with_slash a
                   then a ++ b else a ++ "/" ++ b)%string.
Proof.
  intros Hr. unfold Path.join. destruct b as [|c r]; [reflexivity|].
  destruct (Ascii.eqb c "/") eqn:Ec.
  - apply Ascii.eqb_eq in Ec; subst c. exfalso; exact (Hr r eq_refl).
  - destruct c as [[] [] [] [] [] [] [] []]; try reflexivity;
      vm_compute in Ec; discriminate.
Qed.

Lemma contains_slash_app a t : contains_char "/" (a ++ "/" ++ t) = true.
Proof.
  induction a as [|c a IH]; [reflexivity|].
  change (String c a ++ "/" ++ t)%string with (String c (a ++ "/" ++ t)).
  cbn [contains_char]. rewrite IH, orb_true_r. reflexivity.
Qed.

Lemma split_raw_last a t :
  contains_char "/" t = false -> Path.split_raw (a ++ "/" ++ t) = ((a ++ "/")%string, t).
Proof.
  intros Ht. induction a as [|c a IH].
  - simpl. rewrite Ht. reflexivity.
  - change ((String c a ++ "/" ++ t)%string) with (String c (a ++ "/" ++ t)).
    cbn [Path.split_raw]. rewrite contains_slash_app, IH. reflexivity.
Qed.

Lemma split_base_slash base t :
  base <> "" -> Path.ends_with_slash base = false -> contains_char "/" t = false ->
  Path.split (base ++ "/" ++ t) = (base, t).
Proof.
  intros Hb He Ht. unfold Path.split. rewrite split_raw_last by exact Ht.
  unfold Path.ends_with_slash in He.
  destruct (rev (list_ascii_of_string base)) as [|c l] eqn:Er.
  { destruct base; [congruence|simpl in Er; destruct (rev (list_ascii_of_string base)); discriminate]. }
  assert (Hl : list_ascii_of_string base = rev l ++ [c]).
  { rewrite <- (rev_involutive (list_ascii_of_string base)), Er. reflexivity. }
  assert (Hne : (base ++ "/")%string <> "") by (destruct base; [congruence|discriminate]).
  apply String.eqb_neq in Hne. rewrite Hne.
  unfold Path.all_slashes, Path.rstrip_slash. rewrite list_ascii_app, Hl.
  rewrite forallb_app, forallb_app. cbn [forallb]. rewrite He. simpl negb.
  rewrite andb_false_r. simpl.
  rewrite rev_app_distr, rev_app_distr. simpl. rewrite He.
  rewrite rev_involutive.
  rewrite <- Er, rev_involutive, string_of_list_ascii_of_string. reflexivity.
Qed.

Lemma no_slash_not_start t : contains_char "/" t = false -> forall r, t <> String "/" r.
Proof. intros H r ->. discriminate. Qed.



Lemma get_filename_split base fresh it :
  base <> "" -> Path.ends_with_slash base = false ->
  Path.split (get_filename base fresh it) =
  (base, strip_chars (if String.eqb (name it) "" then fresh else name it)).
Proof.
  intros Hb He. unfold get_filename.
  rewrite join_plain by (apply no_slash_not_start, strip_chars_no_slash).
  apply String.eqb_neq in Hb. rewrite Hb, He. simpl orb.
  apply split_base_slash; [apply String.eqb_neq; exact Hb|exact He|].
  apply strip_chars_no_slash.
Qed.
End FileNameFacts.


Module TagDictFacts.
Import Py PyFacts ParseMeta ApplyMeta Aux.

Lemma keys_set_mem {V} x k (v : V) (d : dict V) :
  existsb (String.eqb x) (map fst (set k v d)) =
  String.eqb x k || existsb (String.eqb x) (map fst d).
Proof.
  induction d as [|[k0 v0] d IH]; cbn [set map fst existsb].
  - rewrite orb_false_r. reflexivity.
  - destruct (String.eqb k k0) eqn:E.
    + apply String.eqb_eq in E; subst k0. cbn [map fst existsb].
      destruct (String.eqb x k); reflexivity.
    + cbn [map fst existsb]. rewrite IH.
      destruct (String.eqb x k0), (String.eqb x k); reflexivity.
Qed.

Lemma keys_distinct_set {V} k (v : V) (d : dict V) :
  keys_distinct (map fst d) = true -> keys_distinct (map fst (set k v d)) = true.
Proof.
  induction d as [|[k0 v0] d IH]; cbn [set map fst keys_distinct]; [reflexivity|].
  intros H. apply andb_true_iff in H as [Hn Hd].
  destruct (String.eqb k k0) eqn:E.
  - cbn [map fst keys_distinct]. rewrite Hn, Hd. reflexivity.
  - cbn [map fst keys_distinct]. rewrite IH by exact Hd.
    rewrite keys_set_mem. apply negb_true_iff in Hn. rewrite Hn.
    rewrite String.eqb_sym, E. reflexivity.
Qed.

Lemma tags_loop_inv ts d :
  tag_inv d -> exists d', tags_loop ts d = Some d' /\ tag_inv d'.
Proof.
  revert d; induction ts as [|t ts IH]; intros d [Hk [Hdef Hne]]; cbn [tags_loop].
  - exists d. repeat split; assumption.
  - destruct (contains_char ":" t).
    + set (ns := capitalize (nth 0 (split ":" t) "")).
      set (tag := norm (nth 1 (split ":" t) "")).
      assert (Hns : ns <> "default") by apply capitalize_not_default.
      set (tags1 := if has_key ns d then d else set ns [] d).
      assert (Hg1 : exists l, get ns tags1 = Some l).
      { unfold tags1, has_key. destruct (get ns d) as [l|] eqn:E.
        - exists l; exact E.
        - exists []. rewrite get_set, String.eqb_refl. reflexivity. }
      destruct Hg1 as [l Hl].
      assert (Ht1 : forall k, k <> ns -> get k tags1 = get k d).
      { intros k Hk'. unfold tags1. destruct (has_key ns d); [reflexivity|].
        rewrite get_set. apply String.eqb_neq in Hk'. rewrite Hk'. reflexivity. }
      assert (Hk1 : keys_distinct (map fst tags1) = true).
      { unfold tags1. destruct (has_key ns d); [exact Hk|]. apply keys_distinct_set, Hk. }
      unfold append_to. rewrite Hl. apply IH. split; [|split].
      * apply keys_distinct_set, Hk1.
      * rewrite get_set. destruct (String.eqb "default" ns) eqn:E.
        { apply String.eqb_eq in E. congruence. }
        rewrite Ht1; [exact Hdef|]. intros E'. apply Hns. symmetry. exact E'.
      * intros k l' Hg Hkd. rewrite get_set in Hg.
        destruct (String.eqb k ns) eqn:E.
        { injection Hg as <-. destruct l; discriminate. }
        apply String.eqb_neq in E. rewrite Ht1 in Hg by exact E.
        exact (Hne k l' Hg Hkd).
    + unfold append_to. destruct (get "default" d) as [l|] eqn:Hd; [|contradiction].
      apply IH. split; [|split].
      * apply keys_distinct_set, Hk.
      * rewrite get_set, String.eqb_refl. discriminate.
      * intros k l' Hg Hkd. rewrite get_set in Hg.
        apply String.eqb_neq in Hkd as Hkd'. rewrite Hkd' in Hg.
        exact (Hne k l' Hg Hkd).
Qed.
End TagDictFacts.


Module RenameFacts2.
Import Py Downloader.

Lemma rename_loop_tries rn fname fpart max_loop fuel n src dst :
  snd (Path.split fname) <> "" ->
  In (src, dst) (snd (rename_loop rn fname fpart max_loop fuel n)) ->
  src = fst (Path.split fname) /\
  exists m, n <= m < max_loop /\ dst = ("(" ++ str_nat m ++ ")" ++ snd (Path.split fname))%string.
Proof.
  intros Ht. revert n; induction fuel as [|fuel IH]; intros n Hin; simpl in Hin; [destruct Hin|].
  destruct (Nat.ltb n max_loop) eqn:Hlt; [|destruct Hin].
  apply Nat.ltb_lt in Hlt.
  apply String.eqb_neq in Ht. rewrite Ht in Hin. simpl negb in Hin. cbv iota in Hin.
  destruct (rn (fst (Path.split fname)) _).
  - destruct Hin as [Heq|[]]. injection Heq as <- <-.
    split; [reflexivity|]. exists n. split; [lia|reflexivity].
  - destruct (rename_loop rn fname fpart max_loop fuel (S n)) as [n' tries] eqn:E.
    destruct Hin as [Heq|Hin].
    + injection Heq as <- <-. split; [reflexivity|]. exists n. split; [lia|reflexivity].
    + assert (H := IH (S n)). rewrite E in H. destruct (H Hin) as [Hs [m [Hm Hd]]].
      split; [exact Hs|]. exists m. split; [lia|exact Hd].
Qed.
End RenameFacts2.


Module PluginFacts.
Import Py PyFacts Plugins Aux.

Lemma add_handler_in h x hs : In x (add_handler h hs) <-> x = h \/ In x hs.
Proof.
  unfold add_handler. destruct (existsb (Nat.eqb h) hs) eqn:E.
  - apply existsb_exists in E as [y [Hy Ey]]. apply Nat.eqb_eq in Ey; subst y.
    split; [tauto|]. intros [->|H]; assumption.
  - rewrite in_app_iff. simpl. split.
    + intros [H|[H|[]]]; [right; exact H|left; symmetry; exact H].
    + intros [H|H]; [right; left; symmetry; exact H|left; exact H].
Qed.

Lemma handlers_step hs c pid hook :
  resolvable hs c = true ->
  forall x, In x (handlers_of (connect_step hs c) pid hook) <->
    (pid = pluginid c /\ hook = h_name c /\ x = conn_handler c) \/ In x (handlers_of hs pid hook).
Proof.
  unfold resolvable, connect_step, handlers_of.
  destruct (get (pluginid c) hs) as [p|] eqn:Ep; [|discriminate].
  destruct (get (h_name c) p) as [h|] eqn:Eh; [|discriminate].
  intros _ x. rewrite get_set.
  destruct (String.eqb pid (pluginid c)) eqn:E1.
  - apply String.eqb_eq in E1; subst pid. rewrite Ep, get_set.
    destruct (String.eqb hook (h_name c)) eqn:E2.
    + apply String.eqb_eq in E2; subst hook. rewrite Eh, add_handler_in. tauto.
    + apply String.eqb_neq in E2. split; [tauto|]. intros [(_ & H & _)|H]; [contradiction|exact H].
  - apply String.eqb_neq in E1. split; [tauto|]. intros [(H & _)|H]; [contradiction|exact H].
Qed.

Lemma resolvable_step hs c c' :
  resolvable hs c' = true -> resolvable (connect_step hs c) c' = true.
Proof.
  unfold resolvable, connect_step.
  destruct (get (pluginid c) hs) as [p|] eqn:Ep; [|tauto].
  destruct (get (h_name c) p) as [h|] eqn:Eh; [|tauto].
  rewrite get_set. destruct (String.eqb (pluginid c') (pluginid c)) eqn:E1; [|tauto].
  apply String.eqb_eq in E1. rewrite E1, Ep, get_set.
  destruct (String.eqb (h_name c') (h_name c)); [reflexivity|tauto].
Qed.

Lemma connect_hooks_cons hs c cs :
  resolvable hs c = true -> connect_hooks hs (c :: cs) = connect_hooks (connect_step hs c) cs.
Proof.
  unfold resolvable, connect_step. simpl.
  destruct (get (pluginid c) hs) as [p|]; [|discriminate].
  destruct (get (h_name c) p); [reflexivity|discriminate].
Qed.

Lemma connect_all hs cs :
  (forall c, In c cs -> resolvable hs c = true) ->
  forall pid hook x, In x (handlers_of (connect_hooks hs cs) pid hook) <->
    (exists c, In c cs /\ pid = pluginid c /\ hook = h_name c /\ x = conn_handler c) \/
    In x (handlers_of hs pid hook).
Proof.
  revert hs; induction cs as [|c cs IH]; intros hs Hr pid hook x.
  - simpl. split; [tauto|]. intros [[c [[] _]]|H]; exact H.
  - rewrite connect_hooks_cons by (apply Hr; left; reflexivity).
    rewrite IH.
    + rewrite handlers_step by (apply Hr; left; reflexivity).
      split.
      * intros [[c' [Hc' Hrest]]|[Hrest|H]]; [left; exists c'; split; [right; exact Hc'|exact Hrest]| |right; exact H].
        left; exists c; split; [left; reflexivity|exact Hrest].
      * intros [[c' [[<-|Hc'] Hrest]]|H]; [right; left; exact Hrest| |right; right; exact H].
        left; exists c'; split; assumption.
    + intros c' Hc'. apply resolvable_step, Hr. right; exact Hc'.
Qed.
End PluginFacts.


Module HenItemFacts.
Import HenItem.

Lemma dget_dset k k' v d :
  dget k (dset k' v d) = if String.eqb k k' then Some v else dget k d.
Proof.
  induction d as [|[k0 v0] d IH]; cbn [dset dget].
  - destruct (String.eqb k k'); reflexivity.
  - destruct (String.eqb k' k0) eqn:E1.
    + apply String.eqb_eq in E1; subst k0. cbn [dget].
      destruct (String.eqb k k'); reflexivity.
    + cbn [dget]. rewrite IH.
      destruct (String.eqb k k') eqn:E2; [|reflexivity].
      apply String.eqb_eq in E2; subst k. rewrite E1. reflexivity.
Qed.

Lemma dget_nonempty k d v : dget k d = Some v -> d <> [].
Proof. intros H ->. discriminate. Qed.
End HenItemFacts.


Module ParseFacts.
Import Py PyFacts EHen EHenParse Aux.

Lemma parse_tags_inv ts tags : ParseMeta.parse_tags ts = Some tags -> tag_inv tags.
Proof.
  intros H.
  destruct (TagDictFacts.tags_loop_inv ts [("default", [])]) as [d [Hrun Hinv]].
  { split; [reflexivity|]. split; [discriminate|].
    intros k l Hg Hkd. simpl in Hg. destruct (String.eqb k "default") eqn:E.
    - apply String.eqb_eq in E. contradiction.
    - discriminate. }
  unfold ParseMeta.parse_tags in H. rewrite Hrun in H. injection H as <-. exact Hinv.
Qed.

Lemma parse_gallery_tags un pi ft g ng :
  parse_gallery un pi ft g = PMReturn ng -> tag_inv (ng_tags ng).
Proof.
  unfold parse_gallery.
  destruct (match ag_title_jpn g, ag_title g with
            | Some tj, Some t => _ | None, Some t => _ | _, None => None end) as [[td tj]|];
    [|discriminate].
  destruct (ag_category g); [|discriminate].
  destruct (ag_posted g); [|discriminate].
  destruct (pi s0); [|discriminate].
  destruct (ag_tags g) as [ts|]; [|discriminate].
  destruct (ParseMeta.parse_tags ts) as [tags|] eqn:E; [|discriminate].
  intros H. injection H as <-. simpl. exact (parse_tags_inv ts tags E).
Qed.

Lemma has_key_set {V} u k (v : V) (d : dict V) :
  has_key u (set k v d) = String.eqb u k || has_key u d.
Proof. unfold has_key. rewrite get_set. destruct (String.eqb u k); reflexivity. Qed.

Lemma parse_loop_return un pi ft gs dm parsed d :
  parse_loop un pi ft gs dm parsed = PMReturn d ->
  (forall g, In g gs -> nget (ag_gid g) dm <> None) /\
  (forall url, has_key url d = true <->
     has_key url parsed = true \/
     exists g, In g gs /\ ag_error g = false /\ nget (ag_gid g) dm = Some url) /\
  ((forall url ng, get url parsed = Some ng -> tag_inv (ng_tags ng)) ->
   forall url ng, get url d = Some ng -> tag_inv (ng_tags ng)).
Proof.
  revert parsed; induction gs as [|g gs IH]; intros parsed H; simpl in H.
  - injection H as <-. split; [intros g []|]. split; [|tauto].
    intros url. split; [tauto|]. intros [H|[g [[] _]]]; exact H.
  - destruct (nget (ag_gid g) dm) as [url0|] eqn:Eg; [|discriminate].
    destruct (ag_error g) eqn:Ee.
    + destruct (IH parsed H) as [H1 [H2 H3]]. split; [|split; [|exact H3]].
      * intros g' [<-|Hg']; [rewrite Eg; discriminate|exact (H1 g' Hg')].
      * intros url. rewrite H2. split.
        -- intros [Hp|[g' [Hg' Hr]]]; [left; exact Hp|right; exists g'; split; [right; exact Hg'|exact Hr]].
        -- intros [Hp|[g' [[<-|Hg'] [He Hr]]]]; [left; exact Hp|congruence|].
           right; exists g'; auto.
    + destruct (parse_gallery un pi ft g) as [ng|e] eqn:Ep; [|discriminate].
      destruct (IH _ H) as [H1 [H2 H3]]. split; [|split].
      * intros g' [<-|Hg']; [rewrite Eg; discriminate|exact (H1 g' Hg')].
      * intros url. rewrite H2, has_key_set. split.
        -- intros [Hp|[g' [Hg' Hr]]].
           ++ apply orb_true_iff in Hp as [Hu|Hp]; [|left; exact Hp].
              apply String.eqb_eq in Hu; subst url. right. exists g. split; [left; reflexivity|auto].
           ++ right; exists g'; split; [right; exact Hg'|exact Hr].
        -- intros [Hp|[g' [[<-|Hg'] [He Hr]]]].
           ++ left. rewrite Hp, orb_true_r. reflexivity.
           ++ left. rewrite Eg in Hr. injection Hr as ->. rewrite String.eqb_refl. reflexivity.
           ++ right; exists g'; auto.
      * intros Hinv. apply H3. intros url ng' Hget. rewrite get_set in Hget.
        destruct (String.eqb url url0).
        -- injection Hget as <-. exact (parse_gallery_tags un pi ft g ng Ep).
        -- exact (Hinv url ng' Hget).
Qed.
End ParseFacts.

(* ------------------------------------------------------------------ *)
(** ** Further properties of the code *)

(** [CommenHen.add_to_queue] never leaves 25 or more urls in the queue:
    whatever [url], [proc] and [parse] are, the queue it leaves behind is
    shorter than [_QUEUE_LIMIT]. *)
Theorem add_to_queue_bounded R gm pm pmc url proc parse queue :
  length (snd (fst (@CommenHenQ.add_to_queue R gm pm pmc url proc parse queue)))
    < CommenHen.QUEUE_LIMIT.
Proof.
  unfold CommenHenQ.add_to_queue.
  set (q := if String.eqb url "" then queue else queue ++ [url]).
  assert (Hp : forall par, length (snd (fst (@CommenHenQ.process R gm pm pmc par q)))
                           < CommenHen.QUEUE_LIMIT).
  { intros par. rewrite (proj1 (QFacts.process_queue_result R gm pm pmc par q)),
      QFacts.process_queue_empties.
    unfold CommenHen.QUEUE_LIMIT. simpl. lia. }
  destruct proc; [apply Hp|].
  destruct (Nat.leb CommenHen.QUEUE_LIMIT (length q)) eqn:E; [apply Hp|].
  apply Nat.leb_gt in E. exact E.
Qed.

(** [CommenHen.add_to_queue(url, proc=False)] with a non-empty [url] on a
    queue below the limit only appends [url] and returns [1] while the
    queue stays below 25; when [url] is the 25th, [get_metadata] is called
    with the whole queue and the queue is cleared. *)
Theorem add_to_queue_batches R gm pm pmc url parse queue :
  url <> "" -> length queue < CommenHen.QUEUE_LIMIT ->
  (S (length queue) < CommenHen.QUEUE_LIMIT ->
   @CommenHenQ.add_to_queue R gm pm pmc url false parse queue
     = (CommenHenQ.AQOne, queue ++ [url], None)) /\
  (S (length queue) = CommenHen.QUEUE_LIMIT ->
   snd (fst (@CommenHenQ.add_to_queue R gm pm pmc url false parse queue)) = [] /\
  snd (@CommenHenQ.add_to_queue R gm pm pmc url false parse queue) = Some (queue ++ [url])).
Proof.
  intros Hu Hl. unfold CommenHenQ.add_to_queue.
  destruct (String.eqb url "") eqn:E; [apply String.eqb_eq in E; contradiction|].
  rewrite length_app. simpl length. rewrite Nat.add_1_r. split.
  - intros Hs. destruct (Nat.leb CommenHen.QUEUE_LIMIT (S (length queue))) eqn:E2;
      [apply Nat.leb_le in E2; lia|reflexivity].
  - intros Hs. rewrite Hs, Nat.leb_refl.
    rewrite (proj1 (QFacts.process_queue_result R gm pm pmc parse _)),
      (proj2 (QFacts.process_queue_result R gm pm pmc parse _)),
      QFacts.process_queue_empties.
    split; [reflexivity|].
    unfold CommenHen.process_queue. rewrite length_app. simpl length.
    rewrite Nat.add_1_r, Hs. cbn [Nat.ltb Nat.leb CommenHen.QUEUE_LIMIT].
    cbn [snd].
    rewrite firstn_all2; [reflexivity|]. rewrite length_app. simpl. lia.
Qed.

Lemma add_to_queue_batches_witness :
  ("u" <> "" /\ length (@nil string) < CommenHen.QUEUE_LIMIT) /\
  ((S (length (@nil string)) < CommenHen.QUEUE_LIMIT ->
    @CommenHenQ.add_to_queue unit (fun _ => CommenHen.GMNone) (fun _ _ => inl tt)
      (fun _ _ => inl tt)
      "u" false false [] = (CommenHenQ.AQOne, [] ++ ["u"], None)) /\
  (S (length (@nil string)) = CommenHen.QUEUE_LIMIT ->
    snd (fst (@CommenHenQ.add_to_queue unit (fun _ => CommenHen.GMNone) (fun _ _ => inl tt)
      (fun _ _ => inl tt)
      "u" false false [])) = [] /\
  snd (@CommenHenQ.add_to_queue unit (fun _ => CommenHen.GMNone) (fun _ _ => inl tt)
      (fun _ _ => inl tt)
      "u" false false []) = Some ([] ++ ["u"]))).
Proof.
  split; [split; [discriminate|unfold CommenHen.QUEUE_LIMIT; simpl; lia]|].
  apply add_to_queue_batches; [discriminate|unfold CommenHen.QUEUE_LIMIT; simpl; lia].
Defined.

(** [EHen.parse_url] reads back the gallery id and token of a gallery url:
    after a prefix without digits, [g/], the decimal id, [/] and a non-empty
    alphanumeric token, followed by anything that does not continue the
    token, it returns [(gid, token)]. *)
Theorem parse_url_roundtrip (prefix tok rest : string) (gid : nat) :
  (forall c, In c (list_ascii_of_string prefix) -> PyStr.is_digit c = false) ->
  tok <> "" -> Aux.all_chars PyStr.is_alnum tok -> Aux.starts_not PyStr.is_alnum rest ->
  EHen.parse_url (prefix ++ "g/" ++ Py.str_nat gid ++ "/" ++ tok ++ rest) = Some (gid, tok).
Proof.
  intros Hp Ht Hta Hr. unfold EHen.parse_url.
  rewrite (UrlFacts.search_after_prefix prefix _ (Py.str_nat gid, tok) Hp).
  - change ("/" ++ tok)%string with (String "/" tok). rewrite UrlFacts.split_one.
    + rewrite UrlFacts.dec_value_str_nat. reflexivity.
    + apply (UrlFacts.all_chars_no PyStr.is_digit); [apply UrlFacts.uint_digits|reflexivity].
    + apply (UrlFacts.all_chars_no PyStr.is_alnum); [exact Hta|reflexivity].
  - unfold EHen.match_at.
    rewrite UrlFacts.span_app; [|apply UrlFacts.uint_digits|reflexivity].
    destruct (String.eqb (Py.str_nat gid) "") eqn:E.
    + apply String.eqb_eq in E. exfalso; exact (UrlFacts.str_nat_nonempty _ E).
    + simpl. rewrite UrlFacts.span_app by assumption.
      destruct (String.eqb tok "") eqn:E2; [apply String.eqb_eq in E2; contradiction|].
      reflexivity.
Qed.

Lemma parse_url_roundtrip_witness :
  EHen.parse_url ("https://e-hentai.org/" ++ "g/" ++ Py.str_nat 1234 ++ "/"
                  ++ "0439fa3666" ++ "/") = Some (1234, "0439fa3666").
Proof.
  apply parse_url_roundtrip.
  - intros c Hc. simpl in Hc.
    repeat (destruct Hc as [<-|Hc]; [reflexivity|]). destruct Hc.
  - discriminate.
  - intros c Hc. simpl in Hc.
    repeat (destruct Hc as [<-|Hc]; [reflexivity|]). destruct Hc.
  - reflexivity.
Defined.

(** [EHen.get_metadata] returns [None] without posting anything when it is
    given more than 25 urls, or when none of its urls parses as a gallery
    url. *)
Theorem get_metadata_none_without_request
  (post : list (nat * string) -> option EHen.response) (urls : list string) :
  (25 < length urls \/ (forall u, In u urls -> EHen.parse_url (PyStr.strip u) = None)) ->
  EHen.get_metadata post urls = CommenHen.GMNone.
Proof.
  intros H. unfold EHen.get_metadata.
  destruct (Nat.ltb 25 (length urls)) eqn:E; [reflexivity|].
  destruct H as [H|H]; [apply Nat.ltb_nlt in E; lia|].
  rewrite GetMetaFacts.collect_unparsable by exact H. reflexivity.
Qed.

Lemma get_metadata_none_without_request_witness :
  EHen.get_metadata (fun _ => None) ["https://e-hentai.org/"; "not a url"]
    = CommenHen.GMNone.
Proof.
  apply get_metadata_none_without_request. right.
  intros u Hu. simpl in Hu.
  repeat (destruct Hu as [<-|Hu]; [reflexivity|]). destruct Hu.
Defined.

(** When [EHen.get_metadata] succeeds, the [dict_metadata] it returns maps
    each gallery id to the last url of the list that parses to that id (the
    url as given, before [strip]), and has no other ids. *)
Theorem get_metadata_dict_last_url
  (post : list (nat * string) -> option EHen.response) (urls : list string)
  (j : string) (dict_metadata : list (nat * string)) :
  EHen.get_metadata post urls = CommenHen.GMPair j dict_metadata ->
  forall g, EHen.nget g dict_metadata =
    find (fun u => match EHen.parse_url (PyStr.strip u) with
                   | Some (g', _) => Nat.eqb g g'
                   | None => false end) (rev urls).
Proof.
  intros H g. unfold EHen.get_metadata in H.
  destruct (Nat.ltb 25 (length urls)); [discriminate|].
  pose proof (GetMetaFacts.collect_dict urls [] [] g) as Hd.
  destruct (EHen.collect urls [] []) as [dm gl].
  destruct gl as [|p gl]; [discriminate|].
  destruct (post (p :: gl)) as [r|]; [|discriminate].
  destruct (EHen.handle_error r) as [|[]|]; try discriminate.
  destruct (EHen.status_ok r); [|discriminate].
  destruct (EHen.json r); [|discriminate].
  injection H as _ <-. simpl in Hd. rewrite Hd.
  fold (Aux.hits g).
  destruct (find (Aux.hits g) (rev urls)); reflexivity.
Qed.

Lemma get_metadata_dict_last_url_witness :
  EHen.get_metadata
    (fun _ => Some (EHen.mkResp [("Content-Type", "application/json")] "{}" true (Some "{}")))
    ["https://e-hentai.org/g/12/ab12cd/"; " https://e-hentai.org/g/12/ab12cd/ "]
  = CommenHen.GMPair "{}" [(12, " https://e-hentai.org/g/12/ab12cd/ ")] /\
  EHen.nget 12 [(12, " https://e-hentai.org/g/12/ab12cd/ ")] =
    find (fun u => match EHen.parse_url (PyStr.strip u) with
                   | Some (g', _) => Nat.eqb 12 g'
                   | None => false end)
      (rev ["https://e-hentai.org/g/12/ab12cd/"; " https://e-hentai.org/g/12/ab12cd/ "]).
Proof.
  assert (H : EHen.get_metadata
    (fun _ => Some (EHen.mkResp [("Content-Type", "application/json")] "{}" true (Some "{}")))
    ["https://e-hentai.org/g/12/ab12cd/"; " https://e-hentai.org/g/12/ab12cd/ "]
    = CommenHen.GMPair "{}" [(12, " https://e-hentai.org/g/12/ab12cd/ ")])
    by reflexivity.
  split; [exact H|]. exact (get_metadata_dict_last_url _ _ _ _ H 12).
Defined.

(** A ban page makes [EHen.get_metadata] return the string ['error'] once
    a url of the batch parses; [add_to_queue(url, proc=True)] then tries to
    unpack that five-character string into two names, and the ValueError
    this raises is not caught: it propagates, after the queue was cleared. *)
Theorem ban_page_add_to_queue_raises
  (R : Type) (parse_metadata : string -> list (nat * string) -> R + string)
  (parse_metadata_chars : ascii -> ascii -> R + string)
  (post : list (nat * string) -> option EHen.response) (r : EHen.response)
  (ct url : string) (queue : list string) (parse : bool) (u : string)
  (Hurl : url <> "")
  (Hlen : length queue < CommenHen.QUEUE_LIMIT)
  (Hin : In u (queue ++ [url]))
  (Hparse : EHen.parse_url (PyStr.strip u) <> None)
  (Hpost : forall gl, post gl = Some r)
  (Hct : EHen.ci_get "content-type" (EHen.headers r) = Some ct)
  (Hgif : PyStr.contains_sub "image/gif" ct = false)
  (Hban : PyStr.contains_sub "Your IP address has been" (EHen.text r) = true) :
  EHen.get_metadata post (queue ++ [url]) = CommenHen.GMStr "error" /\
  CommenHenQ.add_to_queue R (EHen.get_metadata post) parse_metadata parse_metadata_chars url true parse queue
    = (CommenHenQ.AQRaise "ValueError", [], Some (queue ++ [url])).
Proof.
  assert (Hg : EHen.get_metadata post (queue ++ [url]) = CommenHen.GMStr "error").
  { unfold EHen.get_metadata.
    rewrite length_app. simpl length.
    destruct (Nat.ltb 25 (length queue + 1)) eqn:E;
      [apply Nat.ltb_lt in E; unfold CommenHen.QUEUE_LIMIT in Hlen; lia|].
    pose proof (GetMetaFacts.collect_nonempty (queue ++ [url]) [] [] u Hin Hparse) as Hne.
    destruct (EHen.collect (queue ++ [url]) [] []) as [dm gl].
    destruct gl as [|p gl]; [contradiction|].
    rewrite Hpost. unfold EHen.handle_error. rewrite Hct, Hgif, Hban. reflexivity. }
  split; [exact Hg|].
  unfold CommenHenQ.add_to_queue.
  destruct (String.eqb url "") eqn:E; [apply String.eqb_eq in E; contradiction|].
  unfold CommenHenQ.process, CommenHen.process_queue.
  rewrite length_app. simpl length.
  destruct (Nat.ltb (length queue + 1) 1) eqn:E1; [apply Nat.ltb_lt in E1; lia|].
  destruct (Nat.leb CommenHen.QUEUE_LIMIT (length queue + 1)) eqn:E2.
  - rewrite firstn_all2 by (rewrite length_app; simpl; apply Nat.leb_le in E2;
      unfold CommenHen.QUEUE_LIMIT in *; lia).
    rewrite Hg. reflexivity.
  - rewrite Hg. reflexivity.
Qed.

Lemma ban_page_add_to_queue_raises_witness :
  EHen.get_metadata
    (fun _ => Some (EHen.mkResp [("content-type", "text/html")]
                 "Your IP address has been temporarily banned" true None))
    ([] ++ ["https://e-hentai.org/g/12/ab12cd/"]) = CommenHen.GMStr "error" /\
  CommenHenQ.add_to_queue unit
    (EHen.get_metadata (fun _ => Some (EHen.mkResp [("content-type", "text/html")]
                 "Your IP address has been temporarily banned" true None)))
    (fun _ _ => inl tt) (fun _ _ => inl tt) "https://e-hentai.org/g/12/ab12cd/" true true []
  = (CommenHenQ.AQRaise "ValueError", [], Some ([] ++ ["https://e-hentai.org/g/12/ab12cd/"])).
Proof.
  apply (ban_page_add_to_queue_raises unit (fun _ _ => inl tt) (fun _ _ => inl tt) _
    (EHen.mkResp [("content-type", "text/html")]
       "Your IP address has been temporarily banned" true None)
    "text/html" "https://e-hentai.org/g/12/ab12cd/" [] true
    "https://e-hentai.org/g/12/ab12cd/").
  - discriminate.
  - unfold CommenHen.QUEUE_LIMIT. simpl. lia.
  - simpl. left. reflexivity.
  - vm_compute. discriminate.
  - reflexivity.
  - reflexivity.
  - reflexivity.
  - reflexivity.
Defined.

(** [CommenHen.check_cookie(cookie)] (with the keys of [cookie] distinct)
    leaves every key of [cookie] in [COOKIES]; if all of them were there
    already, [COOKIES] is left as it was, stale values included; if one was
    missing, every value of [cookie] is written over [COOKIES]. *)
Theorem check_cookie_present_and_stale
  (COOKIES cookie : Py.dict string)
  (Hdict : ApplyMeta.keys_distinct (map fst cookie) = true) :
  let r := CommenHenQ.check_cookie COOKIES cookie in
  (forall k, In k (map fst cookie) -> Py.has_key k r = true) /\
  ((forall k, In k (map fst cookie) -> Py.has_key k COOKIES = true) -> r = COOKIES) /\
  ((exists k, In k (map fst cookie) /\ Py.has_key k COOKIES = false) ->
   forall k v, Py.get k cookie = Some v -> Py.get k r = Some v).
Proof.
  intros r. unfold r, CommenHenQ.check_cookie.
  destruct (forallb (fun b => b) (map (fun kv => Py.has_key (fst kv) COOKIES) cookie)) eqn:E.
  - assert (Hall : forall k, In k (map fst cookie) -> Py.has_key k COOKIES = true).
    { intros k Hk. rewrite forallb_forall in E.
      apply in_map_iff in Hk as [[k' v] [<- Hk]].
      apply (E (Py.has_key k' COOKIES)). apply in_map_iff. exists (k', v); auto. }
    split; [exact Hall|]. split; [reflexivity|].
    intros [k [Hk Hn]]. rewrite (Hall k Hk) in Hn. discriminate.
  - split; [intros k Hk; apply CookieFacts.has_key_update, Hk|].
    split.
    + intros Hall. exfalso.
      assert (forallb (fun b => b) (map (fun kv => Py.has_key (fst kv) COOKIES) cookie) = true)
        as E'; [|congruence].
      apply forallb_forall. intros b Hb. apply in_map_iff in Hb as [[k v] [<- Hk]].
      apply Hall. apply in_map_iff. exists (k, v); auto.
    + intros _ k v Hv. rewrite CookieFacts.get_update by exact Hdict. rewrite Hv. reflexivity.
Qed.

Lemma check_cookie_present_and_stale_witness :
  ApplyMeta.keys_distinct (map fst [("ipb_member_id", "2"); ("ipb_pass_hash", "x")]) = true /\
  let r := CommenHenQ.check_cookie [("ipb_member_id", "1")]
             [("ipb_member_id", "2"); ("ipb_pass_hash", "x")] in
  (forall k, In k (map fst [("ipb_member_id", "2"); ("ipb_pass_hash", "x")]) ->
     Py.has_key k r = true) /\
  ((forall k, In k (map fst [("ipb_member_id", "2"); ("ipb_pass_hash", "x")]) ->
     Py.has_key k [("ipb_member_id", "1")] = true) -> r = [("ipb_member_id", "1")]) /\
  ((exists k, In k (map fst [("ipb_member_id", "2"); ("ipb_pass_hash", "x")]) /\
  Py.has_key k [("ipb_member_id", "1")] = false) ->
   forall k v, Py.get k [("ipb_member_id", "2"); ("ipb_pass_hash", "x")] = Some v ->
     Py.get k r = Some v).
Proof.
  split; [reflexivity|].
  apply check_cookie_present_and_stale. reflexivity.
Defined.

(** [EHen.fix_titles] ([html.unescape], then [" ".join(t.split())]) gives
    the unescaped words joined by single spaces: each word is non-empty and
    holds no whitespace, and fixing a fixed title (without a further
    unescape) changes nothing. *)
Theorem fix_titles_normal_form (unescape : string -> string) (text : string) :
  let ws := PyStr.split_ws (unescape text) in
  EHen.fix_titles unescape text = PyStr.join_sp ws /\
  Forall (fun w => w <> "" /\
            forall c, In c (list_ascii_of_string w) -> PyStr.is_space c = false) ws /\
  EHen.fix_titles (fun t => t) (EHen.fix_titles unescape text) =
    EHen.fix_titles unescape text.
Proof.
  intros ws. assert (Hg : Forall Aux.good_word ws)
    by (apply WsFacts.split_ws_aux_good; intros c []).
  split; [reflexivity|]. split; [exact Hg|].
  unfold EHen.fix_titles. fold ws. rewrite WsFacts.split_join by exact Hg. reflexivity.
Qed.

(** [Downloader._get_filename] puts the file directly in the download
    folder: splitting the path it returns gives back the folder and the
    item's name (or the fresh uuid when the name is empty) with the invalid
    characters removed. *)
Theorem get_filename_in_base base fresh it :
  base <> "" -> Path.ends_with_slash base = false ->
  Path.split (Downloader.get_filename base fresh it) =
  (base, Downloader.strip_chars (if String.eqb (Downloader.name it) "" then fresh else Downloader.name it)).
Proof. exact (FileNameFacts.get_filename_split base fresh it). Qed.

Lemma get_filename_in_base_witness :
  Path.split (Downloader.get_filename "/downloads" "abc" sample_item) =
  ("/downloads", Downloader.strip_chars
     (if String.eqb (Downloader.name sample_item) "" then "abc" else Downloader.name sample_item)).
Proof. apply get_filename_in_base; [discriminate|reflexivity]. Defined.

(** A download that is never cancelled and whose final [os.rename]
    succeeds ends, after the queue step, one step per chunk and two more,
    with the item FINISHED, its [file] the computed file name, its
    [current_size] grown by the sum of the chunk sizes and its [total_size]
    the content length; the file exists and the [.part] file does not. *)
Theorem uncancelled_download_commits base fresh cl chunks rename_ok it fs :
  rename_ok (Downloader.part (Downloader.get_filename base fresh it)) (Downloader.get_filename base fresh it) = true ->
  let fname := Downloader.get_filename base fresh it in
  let c := Downloader.run base fresh cl chunks rename_ok
             (repeat Downloader.Work (length chunks + 3)) (Downloader.queued it fs) in
  Downloader.cpc c = Downloader.WDone /\
  Downloader.current_state (Downloader.citem c) = Downloader.FINISHED /\
  Downloader.file (Downloader.citem c) = fname /\
  Downloader.current_size (Downloader.citem c) = Downloader.current_size it + list_sum chunks /\
  Downloader.total_size (Downloader.citem c) = cl /\
  In fname (Downloader.cfs c) /\ ~ In (Downloader.part fname) (Downloader.cfs c).
Proof.
  intros Hr fname c. subst c.
  replace (length chunks + 3) with (S (length chunks + 2)) by lia.
  cbn [repeat]. rewrite DownloaderFacts.run_cons. cbn [Downloader.step Downloader.work Downloader.queued Downloader.cpc Downloader.citem Downloader.cfs].
  rewrite repeat_app, DownloaderFacts.run_app.
  destruct (WorkerFacts.run_chunks base fresh cl chunks rename_ok (Downloader.get_filename base fresh it) chunks
     (Downloader.set_total cl (Downloader.set_state Downloader.DOWNLOADING it))
     (Downloader.part (Downloader.get_filename base fresh it)
        :: Downloader.remove_file (Downloader.part (Downloader.get_filename base fresh it)) fs) eq_refl)
    as (it' & H1 & H2 & H3 & H4 & H5).
  rewrite H1. cbn [repeat Downloader.run fold_left Downloader.step Downloader.work Downloader.cpc Downloader.citem Downloader.cfs].
  fold fname in Hr |- *. rewrite Hr.
  cbn [Downloader.cpc Downloader.citem Downloader.cfs Downloader.set_state
       Downloader.set_file Downloader.current_state Downloader.file
       Downloader.current_size Downloader.total_size].
  repeat split.
  - exact H3.
  - exact H4.
  - left; reflexivity.
  - intros [H|H].
    + apply (WorkerFacts.part_neq fname). symmetry. exact H.
    + unfold Downloader.remove_file at 1 in H. apply filter_In in H as [H _].
      exact (DownloaderFacts.not_in_remove_file _ _ H).
Qed.

Lemma uncancelled_download_commits_witness :
  let fname := Downloader.get_filename "/downloads" "abc" sample_item in
  let c := Downloader.run "/downloads" "abc" 7 [3; 0; 4] (fun _ _ => true)
             (repeat Downloader.Work (length [3; 0; 4] + 3))
             (Downloader.queued sample_item []) in
  Downloader.cpc c = Downloader.WDone /\
  Downloader.current_state (Downloader.citem c) = Downloader.FINISHED /\
  Downloader.file (Downloader.citem c) = fname /\
  Downloader.current_size (Downloader.citem c) =
    Downloader.current_size sample_item + list_sum [3; 0; 4] /\
  Downloader.total_size (Downloader.citem c) = 7 /\
  In fname (Downloader.cfs c) /\ ~ In (Downloader.part fname) (Downloader.cfs c).
Proof.
  apply (uncancelled_download_commits "/downloads" "abc" 7 [3; 0; 4] (fun _ _ => true)
           sample_item []).
  reflexivity.
Defined.

(** [EHen.parse_metadata]'s tag loop never fails (the KeyError of
    [tags[k].append] cannot happen) and builds a canonical tag dict:
    distinct namespaces, a ["default"] entry, and no empty list elsewhere.
    So [apply_metadata], in either mode, never hits the IndexError of
    [data['tags']['Artist'][0]] on a record carrying these tags. *)
Theorem parse_tags_canonical_apply_total (ts : list string) :
  exists tags, ParseMeta.parse_tags ts = Some tags /\
    ApplyMeta.keys_distinct (map fst tags) = true /\
    Py.get "default" tags <> None /\
    (forall k l, Py.get k tags = Some l -> k <> "default" -> l <> []) /\
    forall USE_JPN_TITLE title_parser g title_def title_jpn type_ pub_date url append,
      exists g', ApplyMeta.apply_metadata USE_JPN_TITLE title_parser g
        (ApplyMeta.mkRecord title_def title_jpn type_ pub_date tags url) append = Some g'.
Proof.
  destruct (TagDictFacts.tags_loop_inv ts [("default", [])]) as [d [Hrun [Hk [Hdef Hne]]]].
  { split; [reflexivity|]. split; [discriminate|].
    intros k l Hg Hkd. simpl in Hg. destruct (String.eqb k "default") eqn:E.
    - apply String.eqb_eq in E. contradiction.
    - discriminate. }
  exists d. split; [exact Hrun|]. split; [exact Hk|]. split; [exact Hdef|]. split; [exact Hne|].
  intros USE_JPN_TITLE title_parser g title_def title_jpn type_ pub_date url append.
  assert (Hta : ApplyMeta.tag_artist d <> None).
  { unfold ApplyMeta.tag_artist. destruct (Py.get "Artist" d) as [[|a l]|] eqn:E; try discriminate.
    exfalso. exact (Hne "Artist" [] E ltac:(discriminate) eq_refl). }
  unfold ApplyMeta.apply_metadata. cbn [ApplyMeta.d_tags ApplyMeta.d_title_jpn ApplyMeta.d_title_def
    ApplyMeta.d_type ApplyMeta.d_pub_date ApplyMeta.d_url].
  destruct (title_parser _) as [[tpt tpa] tpl].
  destruct append; simpl negb; cbv iota beta.
  - destruct (ApplyMeta.is_empty (ApplyMeta.g_artist g)).
    + destruct (ApplyMeta.tag_artist d) as [[a|]|]; [| |contradiction]; eexists; reflexivity.
    + eexists; reflexivity.
  - destruct (ApplyMeta.tag_artist d) as [ta|]; [|contradiction]. eexists; reflexivity.
Qed.

(** When the direct [os.rename] of the [.part] file fails, [_rename_file]
    never touches the [.part] file: for a file name built by
    [_get_filename] (non-empty name after stripping), every rename it tries
    moves the download folder itself ([os.path.split(file_name)[0]]) to the
    relative name [(n)<name>], for some [n < 100]. *)
Theorem rename_fallback_moves_folder base fresh it rn src dst :
  base <> "" -> Path.ends_with_slash base = false ->
  Downloader.strip_chars (if String.eqb (Downloader.name it) "" then fresh else Downloader.name it) <> "" ->
  In (src, dst) (snd (Downloader.rename_file rn (Downloader.get_filename base fresh it)
                        (Downloader.part (Downloader.get_filename base fresh it)) 100)) ->
  src = base /\
  exists n, n < 100 /\
    dst = ("(" ++ Py.str_nat n ++ ")" ++
           Downloader.strip_chars (if String.eqb (Downloader.name it) "" then fresh
                                   else Downloader.name it))%string.
Proof.
  intros Hb He Hn Hin.
  assert (Hs := FileNameFacts.get_filename_split base fresh it Hb He).
  unfold Downloader.rename_file in Hin.
  destruct (Downloader.rename_loop rn _ _ 100 100 0) as [k tries] eqn:E.
  simpl in Hin.
  assert (H := RenameFacts2.rename_loop_tries rn (Downloader.get_filename base fresh it)
    (Downloader.part (Downloader.get_filename base fresh it)) 100 100 0 src dst).
  rewrite Hs, E in H. simpl in H. destruct (H Hn Hin) as [H1 [m [Hm H2]]].
  split; [exact H1|]. exists m. split; [lia|exact H2].
Qed.

Lemma rename_fallback_moves_folder_witness :
  "/downloads" = "/downloads" /\
  exists n, n < 100 /\ "(0)foo.zip" = ("(" ++ Py.str_nat n ++ ")" ++
     Downloader.strip_chars (if String.eqb (Downloader.name sample_item) "" then "abc"
                             else Downloader.name sample_item))%string.
Proof.
  apply (rename_fallback_moves_folder "/downloads" "abc" sample_item (fun _ _ => false)).
  - discriminate.
  - reflexivity.
  - vm_compute. discriminate.
  - vm_compute. left. reflexivity.
Defined.

(** When every pending connection resolves, [Plugins._connectHooks]
    attaches all of them: afterwards the handlers of a hook are exactly its
    former handlers plus the handlers of the connections that target it. *)
Theorem connect_hooks_all_resolvable (hs : Plugins.hooks) (conns : list Plugins.connection) :
  (forall c, In c conns -> Plugins.resolvable hs c = true) ->
  forall pid hook x,
    In x (Plugins.handlers_of (Plugins.connect_hooks hs conns) pid hook) <->
    (exists c, In c conns /\ pid = Plugins.pluginid c /\ hook = Plugins.h_name c /\
               x = Plugins.conn_handler c) \/
    In x (Plugins.handlers_of hs pid hook).
Proof. exact (PluginFacts.connect_all hs conns). Qed.

Lemma connect_hooks_all_resolvable_witness :
  In 2 (Plugins.handlers_of
          (Plugins.connect_hooks [("pid", [("hook", [1])]); ("other", [("h", [])])]
             [Plugins.mkConn "A" "pid" "hook" 2; Plugins.mkConn "B" "other" "h" 3])
          "pid" "hook") <->
  (exists c, In c [Plugins.mkConn "A" "pid" "hook" 2; Plugins.mkConn "B" "other" "h" 3] /\
     "pid" = Plugins.pluginid c /\ "hook" = Plugins.h_name c /\ 2 = Plugins.conn_handler c) \/
  In 2 (Plugins.handlers_of [("pid", [("hook", [1])]); ("other", [("h", [])])] "pid" "hook").
Proof.
  apply connect_hooks_all_resolvable.
  intros c Hc. simpl in Hc. destruct Hc as [<-|[<-|[]]]; reflexivity.
Defined.

(** When [EHen.parse_metadata] returns, every gallery of
    [metadata_json['gmetadata']] had its gid in [dict_metadata], including
    the galleries carrying an ['error'] key: [dict_metadata[gallery['gid']]]
    is looked up before the error check, so an unknown gid raises KeyError.
    The keys of the result are the urls of the galleries without an error,
    and the tags stored for each url form a canonical tag dict. *)
Theorem parse_metadata_return unescape py_int fromtimestamp gs dict_metadata d :
  EHenParse.parse_metadata unescape py_int fromtimestamp gs dict_metadata = EHenParse.PMReturn d ->
  (forall g, In g gs -> EHen.nget (EHenParse.ag_gid g) dict_metadata <> None) /\
  (forall url, Py.has_key url d = true <->
     exists g, In g gs /\ EHenParse.ag_error g = false /\
               EHen.nget (EHenParse.ag_gid g) dict_metadata = Some url) /\
  (forall url ng, Py.get url d = Some ng -> Aux.tag_inv (EHenParse.ng_tags ng)).
Proof.
  intros H. destruct (ParseFacts.parse_loop_return _ _ _ _ _ _ _ H) as [H1 [H2 H3]].
  split; [exact H1|]. split.
  - intros url. rewrite H2. split; [intros [Hp|Hp]; [discriminate|exact Hp]|intros Hp; right; exact Hp].
  - apply H3. intros url ng Hg. discriminate.
Qed.

Lemma parse_metadata_return_witness :
  EHenParse.parse_metadata (fun s => s) (fun _ => Some 1) (fun _ => "1970-01-01")
    [EHenParse.mkApiGallery 12 false (Some " A  b ") None (Some "Manga") (Some "1")
       (Some ["artist:x_y"; "full_color"]);
     EHenParse.mkApiGallery 13 true None None None None None]
    [(12, "https://e-hentai.org/g/12/ab/"); (13, "https://e-hentai.org/g/13/cd/")]
  = EHenParse.PMReturn [("https://e-hentai.org/g/12/ab/",
       EHenParse.mkNewGallery "A b" None "Manga" "1970-01-01"
         [("default", ["full color"]); ("Artist", ["x y"])])] /\
  (forall url, Py.has_key url [("https://e-hentai.org/g/12/ab/",
       EHenParse.mkNewGallery "A b" None "Manga" "1970-01-01"
         [("default", ["full color"]); ("Artist", ["x y"])])] = true <->
     exists g, In g [EHenParse.mkApiGallery 12 false (Some " A  b ") None (Some "Manga") (Some "1")
                       (Some ["artist:x_y"; "full_color"]);
                     EHenParse.mkApiGallery 13 true None None None None None] /\
       EHenParse.ag_error g = false /\
       EHen.nget (EHenParse.ag_gid g)
         [(12, "https://e-hentai.org/g/12/ab/"); (13, "https://e-hentai.org/g/13/cd/")] = Some url).
Proof.
  assert (H : EHenParse.parse_metadata (fun s => s) (fun _ => Some 1) (fun _ => "1970-01-01")
    [EHenParse.mkApiGallery 12 false (Some " A  b ") None (Some "Manga") (Some "1")
       (Some ["artist:x_y"; "full_color"]);
     EHenParse.mkApiGallery 13 true None None None None None]
    [(12, "https://e-hentai.org/g/12/ab/"); (13, "https://e-hentai.org/g/13/cd/")]
  = EHenParse.PMReturn [("https://e-hentai.org/g/12/ab/",
       EHenParse.mkNewGallery "A b" None "Manga" "1970-01-01"
         [("default", ["full color"]); ("Artist", ["x y"])])]) by reflexivity.
  split; [exact H|]. exact (proj1 (proj2 (parse_metadata_return _ _ _ _ _ _ H))).
Defined.

(** [Fetch.fetch_metadata] with REPLACE_METADATA off: with the EH API
    selected it raises NotImplementedError; otherwise, when no metadata is
    found it raises TypeError (the bound signal is called) and never
    reaches its [return False]; with metadata it returns the gallery,
    keeping every non-empty title, artist, type, language and publication
    date, and in each namespace its tags become the old tags followed by
    the new ones, so they are exactly the union of both. *)

Theorem fetch_metadata_merge_mode use_ehen_api eh_gallery_parser title_parser g :
  (use_ehen_api = true ->
   FetchMeta.fetch_metadata use_ehen_api false eh_gallery_parser title_parser g
     = FetchMeta.FRaise "NotImplementedError") /\
  (use_ehen_api = false ->
   eh_gallery_parser (FetchMeta.fg_temp_url g) = None ->
   FetchMeta.fetch_metadata use_ehen_api false eh_gallery_parser title_parser g
     = FetchMeta.FRaise "TypeError") /\
  (forall m, use_ehen_api = false ->
   eh_gallery_parser (FetchMeta.fg_temp_url g) = Some m ->
   ApplyMeta.keys_distinct (map fst (FetchMeta.fm_tags m)) = true ->
   exists g', FetchMeta.fetch_metadata use_ehen_api false eh_gallery_parser title_parser g
                = FetchMeta.FReturnGallery g' /\
     (FetchMeta.fg_title g <> "" -> FetchMeta.fg_title g' = FetchMeta.fg_title g) /\
     (FetchMeta.fg_artist g <> "" -> FetchMeta.fg_artist g' = FetchMeta.fg_artist g) /\
     (FetchMeta.fg_type g <> "" -> FetchMeta.fg_type g' = FetchMeta.fg_type g) /\
     (FetchMeta.fg_language g <> "" -> FetchMeta.fg_language g' = FetchMeta.fg_language g) /\
     (FetchMeta.fg_pub_date g <> "" -> FetchMeta.fg_pub_date g' = FetchMeta.fg_pub_date g) /\
     forall ns,
       (forall t, In t (ApplyMeta.tags_of (FetchMeta.fg_tags g') ns) <->
                  In t (ApplyMeta.tags_of (FetchMeta.fg_tags g) ns) \/
                  In t (ApplyMeta.tags_of (FetchMeta.fm_tags m) ns)) /\
       (exists s, ApplyMeta.tags_of (FetchMeta.fg_tags g') ns =
                  ApplyMeta.tags_of (FetchMeta.fg_tags g) ns ++ s)).
Proof.
  split; [|split].
  - intros Hu. unfold FetchMeta.fetch_metadata. rewrite Hu. reflexivity.
  - intros Hu Hn. unfold FetchMeta.fetch_metadata. rewrite Hu, Hn. reflexivity.
  - intros m Hu Hm Hk. unfold FetchMeta.fetch_metadata. rewrite Hu, Hm.
    destruct (title_parser (FetchMeta.fm_title m)) as [[tpt tpa] tpl].
    eexists. split; [reflexivity|]. cbn [FetchMeta.fg_title FetchMeta.fg_artist
      FetchMeta.fg_type FetchMeta.fg_language FetchMeta.fg_pub_date FetchMeta.fg_tags].
    unfold ApplyMeta.is_empty.
    do 5 (split; [intros Hne; apply String.eqb_neq in Hne; rewrite Hne; reflexivity|]).
    intros ns; split.
    + intros t. unfold ApplyMeta.tags_of.
      destruct (FetchMeta.fg_tags g) as [|p gt].
      * simpl. tauto.
      * rewrite ApplyMetaFacts.get_merge_tags by exact Hk.
        destruct (Py.get ns (FetchMeta.fm_tags m)) as [l|];
          destruct (Py.get ns (p :: gt)) as [old|];
          simpl; try rewrite ApplyMetaFacts.add_missing_in; simpl; tauto.
    + unfold ApplyMeta.tags_of.
      destruct (FetchMeta.fg_tags g) as [|p gt].
      * exists (ApplyMeta.tags_of (FetchMeta.fm_tags m) ns). reflexivity.
      * rewrite ApplyMetaFacts.get_merge_tags by exact Hk.
        destruct (Py.get ns (FetchMeta.fm_tags m)) as [l|];
          destruct (Py.get ns (p :: gt)) as [old|].
        -- apply ApplyMetaFacts.add_missing_prefix.
        -- exists l. reflexivity.
        -- exists []. rewrite app_nil_r. reflexivity.
        -- exists []. reflexivity.
Qed.

Lemma fetch_metadata_merge_mode_witness :
  FetchMeta.fetch_metadata false false (fun _ => None) (fun s => (s, "", ""))
    (FetchMeta.mkFGallery "Mine" "" "" "" "" [] "url") = FetchMeta.FRaise "TypeError" /\
  exists g',
    FetchMeta.fetch_metadata false false
      (fun _ => Some (FetchMeta.mkFMeta "T" "Manga" "English" "2015"
                        [("female", ["a"; "b"]); ("male", ["c"])]))
      (fun s => (s, "X", "English"))
      (FetchMeta.mkFGallery "Mine" "" "" "" "" [("female", ["b"; "d"])] "url")
    = FetchMeta.FReturnGallery g' /\
    FetchMeta.fg_title g' = "Mine" /\
    ApplyMeta.tags_of (FetchMeta.fg_tags g') "female" = ["b"; "d"; "a"].
Proof.
  split.
  { apply (proj1 (proj2 (fetch_metadata_merge_mode false (fun _ => None)
      (fun s => (s, "", "")) (FetchMeta.mkFGallery "Mine" "" "" "" "" [] "url"))));
      reflexivity. }
  destruct (proj2 (proj2 (fetch_metadata_merge_mode false
      (fun _ => Some (FetchMeta.mkFMeta "T" "Manga" "English" "2015"
                        [("female", ["a"; "b"]); ("male", ["c"])]))
      (fun s => (s, "X", "English"))
      (FetchMeta.mkFGallery "Mine" "" "" "" "" [("female", ["b"; "d"])] "url")))
      _ eq_refl eq_refl eq_refl)
    as [g' [Hr [Ht _]]].
  exists g'. split; [exact Hr|]. split.
  - apply Ht. discriminate.
  - injection Hr as <-. reflexivity.
Defined.
